(** * isochroner: a shallow embedding of [isochroner/isochroner.py]

    The module turns the polygons of a shapefile into isochrone polygons
    around their centroids and appends them, chunk by chunk, to a CSV file
    that doubles as the ledger of finished identifiers.

    Layout of this file:
    - Python values the code manipulates: exceptions, numbers, the
      [statistics] functions, the pandas operations the code calls;
    - the functions of [isochroner.py], under their own names;
    - concrete instances (IEEE doubles, exact reals) and sample inputs;
    - the properties. *)

From Stdlib Require Import String Ascii ZArith Bool List Lia Permutation FinFun.
From Stdlib Require Import DecimalString DecimalZ DecimalPos.
From Stdlib Require Import PrimFloat FloatOps SpecFloat.
From Stdlib Require Import Reals Lra.
Import ListNotations.

Local Open Scope string_scope.
Local Open Scope list_scope.
Local Open Scope Z_scope.

(** ** Exceptions and fallible computations *)

(** The Python exceptions that can leave the functions of the module.
    [ExternalError] stands for whatever the routing collaborator raises
    (network failure, bad credential, quota). *)
Inductive exn : Type :=
| ValueError
| KeyError
| TypeError
| IndexError
| AttributeError
| ZeroDivisionError
| StatisticsError
| ExternalError (msg : string).

(** A Python expression either yields a value or raises. *)
Inductive result (A : Type) : Type :=
| Ok (a : A)
| Raise (e : exn).
Arguments Ok {A} a.
Arguments Raise {A} e.

Definition bind {A B : Type} (r : result A) (k : A -> result B) : result B :=
  match r with
  | Ok a => k a
  | Raise e => Raise e
  end.

Definition fmap {A B : Type} (f : A -> B) (r : result A) : result B :=
  bind r (fun a => Ok (f a)).

Declare Scope py_scope.
Delimit Scope py_scope with py.
Notation "x <- c1 ;; c2" := (bind c1 (fun x => c2))
  (at level 61, c1 at next level, right associativity) : py_scope.
Local Open Scope py_scope.

(** A list comprehension [[f(x) for x in l]]: elements are computed from
    left to right and the first exception aborts the whole comprehension. *)
Fixpoint mapM {A B : Type} (f : A -> result B) (l : list A) : result (list B) :=
  match l with
  | [] => Ok []
  | x :: xs =>
      y <- f x ;;
      ys <- mapM f xs ;;
      Ok (y :: ys)
  end.

(** A filtering comprehension [[x for x in l if p(x)]]. *)
Fixpoint filterM {A : Type} (p : A -> result bool) (l : list A) : result (list A) :=
  match l with
  | [] => Ok []
  | x :: xs =>
      b <- p x ;;
      ys <- filterM p xs ;;
      Ok (if b then x :: ys else ys)
  end.

(** [l[i]] on a Python list. *)
Definition item_at {A : Type} (l : list A) (i : nat) : result A :=
  match nth_error l i with
  | Some a => Ok a
  | None => Raise IndexError
  end.

(** ** Numbers

    Coordinates are Python floats.  The functions below only use the
    operations gathered in [PyNum]; nothing is assumed about them, so a
    property proved for every [PyNum] holds in particular for IEEE doubles
    ([float_PyNum]) and for exact real arithmetic ([R_PyNum]). *)
Class PyNum (num : Type) : Type := {
  of_int : Z -> num;
  nadd : num -> num -> num;
  nsub : num -> num -> num;
  nmul : num -> num -> num;
  ndiv : num -> num -> num;
  nabs : num -> num;
  nsqrt : num -> num;
  nltb : num -> num -> bool;
  (** [x == 0], the test that makes [/] raise *)
  nzerob : num -> bool
}.

Section Numbers.
Context {num : Type} {NUM : PyNum num}.

(** [a / b]: true division, [ZeroDivisionError] on a zero divisor. *)
Definition py_div (a b : num) : result num :=
  if nzerob b then Raise ZeroDivisionError else Ok (ndiv a b).

Definition total (data : list num) : num :=
  fold_left nadd data (of_int 0).

Definition mean_of (data : list num) : num :=
  ndiv (total data) (of_int (Z.of_nat (length data))).

(** Sum of the squared deviations from the mean. *)
Definition sum_sq (data : list num) : num :=
  total (map (fun x => nmul (nsub x (mean_of data)) (nsub x (mean_of data))) data).

(** [statistics.mean]: the arithmetic mean; [StatisticsError] on empty data
    (Python standard library, modelled from its documentation). *)
Definition st_mean (data : list num) : result num :=
  match data with
  | [] => Raise StatisticsError
  | _ => Ok (mean_of data)
  end.

(** The square root of the sample variance, which divides by [n - 1]. *)
Definition stdev_of (data : list num) : num :=
  nsqrt (ndiv (sum_sq data) (of_int (Z.of_nat (length data) - 1))).

(** [statistics.stdev]: [StatisticsError] on fewer than two data points. *)
Definition st_stdev (data : list num) : result num :=
  if (length data <? 2)%nat then Raise StatisticsError
  else Ok (stdev_of data).

(** ** [check_isochrones] *)

(** A boundary point is the two element list [[lat, lng]].
    [zip( *points )] transposes a set of points: no tuple at all for the
    empty set, otherwise the tuple of the lats and the tuple of the lngs. *)
Definition zip_star (pts : list (num * num)) : list (list num) :=
  match pts with
  | [] => []
  | _ => [map fst pts; map snd pts]
  end.

(** The condition of the comprehension at lines 42-43.  [and] is short
    circuit: the second quotient is computed only when the first test holds. *)
Definition keep_point (mean sd : list num) (std_devs : num) (x : num * num)
  : result bool :=
  m0 <- item_at mean 0 ;;
  s0 <- item_at sd 0 ;;
  q0 <- py_div (nabs (nsub m0 (fst x))) s0 ;;
  if nltb q0 std_devs then
    m1 <- item_at mean 1 ;;
    s1 <- item_at sd 1 ;;
    q1 <- py_div (nabs (nsub m1 (snd x))) s1 ;;
    Ok (nltb q1 std_devs)
  else Ok false.

(** The body of the loop at lines 40-43, for one set. *)
Definition fixed_isos (std_devs : num) (pts : list (num * num))
  : result (list (num * num)) :=
  mean <- mapM st_mean (zip_star pts) ;;
  sd <- mapM st_stdev (zip_star pts) ;;
  filterM (keep_point mean sd std_devs) pts.

Definition check_isochrones (points : list (list (num * num))) (std_devs : num)
  : result (list (list (num * num))) :=
  mapM (fixed_isos std_devs) points.

(** The default [std_devs=2]. *)
Definition std_devs_default : num := of_int 2.

End Numbers.

(** ** [batch] *)

(** What [batch] asks of its argument: [len] and slicing by two
    non-negative positions. *)
Class Sliceable (T : Type) : Type := {
  len : T -> nat;
  slice : T -> nat -> nat -> T
}.

(** [l[a:b]] on a list, for [0 <= a] and [0 <= b]. *)
#[export] Instance list_Sliceable (A : Type) : Sliceable (list A) := {
  len := @length A;
  slice := fun l a b => firstn (b - a) (skipn a l)
}.

(** [range(start, stop, step)]: [ValueError] on a zero step. *)
Definition py_range (start stop step : Z) : result (list Z) :=
  if step =? 0 then Raise ValueError
  else
    let count :=
      if 0 <? step then (stop - start + step - 1) / step
      else (start - stop - step - 1) / (- step) in
    Ok (map (fun i => start + Z.of_nat i * step) (seq 0 (Z.to_nat count))).

(** [batch(iterable, n)]: the chunks the generator yields, in order.  The
    generator is consumed by a [for] loop at its only call site; the
    [ValueError] of a zero [n] is raised before the first chunk. *)
Definition batch {T : Type} {S : Sliceable T} (iterable : T) (n : Z)
  : result (list T) :=
  let li := Z.of_nat (len iterable) in
  idx <- py_range 0 li n ;;
  Ok (map (fun ndx => slice iterable (Z.to_nat ndx) (Z.to_nat (Z.min (ndx + n) li))) idx).

(** ** Tables

    pandas, geopandas and shapely are libraries the module calls; what
    follows models the operations it calls, from their documentation, as
    far as the module can observe them. *)

(** A shapely polygon, given by the coordinate sequence handed to
    [geometry.Polygon] (shapely closes the ring itself). *)
Inductive polygon (num : Type) : Type :=
| MkPolygon (shell : list (num * num)).
Arguments MkPolygon {num} shell.

Definition exterior {num : Type} (p : polygon num) : list (num * num) :=
  match p with MkPolygon shell => shell end.

(** The cells of a table. *)
Inductive value (num : Type) : Type :=
| VInt (z : Z)
| VStr (s : string)
| VNaN
| VList (l : list num)
| VGeom (g : polygon num).
Arguments VInt {num} z.
Arguments VStr {num} s.
Arguments VNaN {num}.
Arguments VList {num} l.
Arguments VGeom {num} g.

(** Column labels: names, or the integers of the duration columns. *)
Inductive label : Type :=
| LStr (s : string)
| LInt (z : Z).

Definition label_eqb (a b : label) : bool :=
  match a, b with
  | LStr s, LStr t => String.eqb s t
  | LInt x, LInt y => Z.eqb x y
  | _, _ => false
  end.

(** [isinstance(col, int)] on a column label. *)
Definition is_int_label (l : label) : bool :=
  match l with LInt _ => true | LStr _ => false end.

Coercion LStr : string >-> label.

(** A DataFrame, column by column; every column is as long as the index. *)
Record DataFrame (num : Type) : Type := mkDF {
  df_index : list (value num);
  df_columns : list (label * list (value num))
}.
Arguments mkDF {num} df_index df_columns.
Arguments df_index {num} d.
Arguments df_columns {num} d.

(** What shapely computes: the planar centroid [(x, y)] of a geometry, and
    the WKT text [str] gives for one. *)
Class Shapely (num : Type) : Type := {
  centroid : polygon num -> num * num;
  wkt : polygon num -> string;
  (** [str] of a Python list of floats such as [[41.8, -87.6]] *)
  list_repr : list num -> string
}.

(** The [duration] argument: an [int] or a [list] of them. *)
Inductive duration : Type :=
| DInt (d : Z)
| DList (ds : list Z).

(** The [keep_cols] argument: [None], one column name or a list of names. *)
Inductive keep : Type :=
| KNone
| KStr (s : string)
| KList (l : list string).

(** An element of melt's [id_vars]: a label, or a nested list. *)
Inductive id_var : Type :=
| IdLabel (l : label)
| IdList (ls : list label).

Section Pandas.
Context {num : Type} {NUM : PyNum num} {GEO : Shapely num}.

#[local] Abbreviation value := (value num).
#[local] Abbreviation DataFrame := (DataFrame num).
#[local] Abbreviation polygon := (polygon num).

(** [pd.DataFrame()] *)
Definition empty_df : DataFrame := mkDF [] [].

Fixpoint lookup_col (cols : list (label * list value)) (c : label)
  : option (list value) :=
  match cols with
  | [] => None
  | (l, col) :: rest => if label_eqb l c then Some col else lookup_col rest c
  end.

(** [df[c]] *)
Definition get_col (df : DataFrame) (c : label) : result (list value) :=
  match lookup_col (df_columns df) c with
  | Some col => Ok col
  | None => Raise KeyError
  end.

(** Assigning a column: an existing label keeps its place, a new one goes
    last. *)
Fixpoint set_col (cols : list (label * list value)) (c : label) (col : list value)
  : list (label * list value) :=
  match cols with
  | [] => [(c, col)]
  | (l, old) :: rest =>
      if label_eqb l c then (l, col) :: rest else (l, old) :: set_col rest c col
  end.

(** [RangeIndex(n)] *)
Definition range_index (n : nat) : list value :=
  map (fun i => VInt (Z.of_nat i)) (seq 0 n).

(** [df[c] = v] for a scalar [v]: broadcast along the index. *)
Definition setitem_scalar (df : DataFrame) (c : label) (v : value) : DataFrame :=
  mkDF (df_index df) (set_col (df_columns df) c (repeat v (List.length (df_index df)))).

(** A frame without rows takes its index from the first list with
    elements that is assigned to it; the columns it already has are filled
    with NaN. *)
Definition ensure_valid_index (df : DataFrame) (n : nat) : DataFrame :=
  match df_index df, n with
  | [], S _ => mkDF (range_index n)
                    (map (fun lc => (fst lc, repeat VNaN n)) (df_columns df))
  | _, _ => df
  end.

(** [df[c] = vs] for a list or an array: [ValueError] when its length is
    not the length of the index. *)
Definition setitem_list (df : DataFrame) (c : label) (vs : list value)
  : result DataFrame :=
  let df' := ensure_valid_index df (List.length vs) in
  if (List.length vs =? List.length (df_index df'))%nat
  then Ok (mkDF (df_index df') (set_col (df_columns df') c vs))
  else Raise ValueError.

(** [df.set_index(idx)] for an index object [idx]. *)
Definition set_index (df : DataFrame) (idx : list value) : result DataFrame :=
  if (List.length idx =? List.length (df_index df))%nat
  then Ok (mkDF idx (df_columns df))
  else Raise ValueError.

(** [df[keep_cols] = gdf[keep_cols]] for a name or a list of names.  At
    both call sites [df] has just been given [gdf.index], so pandas copies
    the columns without realigning them.  A name that is no column of
    [gdf] is a [KeyError]. *)
Definition copy_cols (df gdf : DataFrame) (names : list string)
  : result DataFrame :=
  cols <- mapM (fun s => col <- get_col gdf (LStr s) ;; Ok (s, col)) names ;;
  fold_left (fun acc sc => d <- acc ;; setitem_list d (LStr (fst sc)) (snd sc))
            cols (Ok df).

Definition setitem_keep (df gdf : DataFrame) (keep_cols : keep) : result DataFrame :=
  match keep_cols with
  | KNone => Raise KeyError
  | KStr s => copy_cols df gdf [s]
  | KList l => copy_cols df gdf l
  end.

(** Rows [a:b], by position. *)
Definition slice_rows (df : DataFrame) (a b : nat) : DataFrame :=
  mkDF (slice (df_index df) a b)
       (map (fun lc => (fst lc, slice (snd lc) a b)) (df_columns df)).

#[export] Instance DataFrame_Sliceable : Sliceable DataFrame := {
  len := fun df => List.length (df_index df);
  slice := slice_rows
}.

(** Keeping the elements of [l] whose flag is set. *)
Fixpoint select {A : Type} (mask : list bool) (l : list A) : list A :=
  match mask, l with
  | b :: mask', x :: l' => if b then x :: select mask' l' else select mask' l'
  | _, _ => []
  end.

(** [df[mask]] for a boolean Series [mask] over the same index. *)
Definition select_rows (df : DataFrame) (mask : list bool) : DataFrame :=
  mkDF (select mask (df_index df))
       (map (fun lc => (fst lc, select mask (snd lc))) (df_columns df)).

(** Python's [==] between cells that can be hashed; NaN equals nothing. *)
Definition py_eqb (a b : value) : bool :=
  match a, b with
  | VInt x, VInt y => Z.eqb x y
  | VStr s, VStr t => String.eqb s t
  | _, _ => false
  end.

(** [item in set(col)]: [TypeError] for an unhashable [item] (a list; a
    shapely 1.x geometry). *)
Definition py_in (item : value) (col : list value) : result bool :=
  match item with
  | VList _ | VGeom _ => Raise TypeError
  | _ => Ok (existsb (py_eqb item) col)
  end.

(** [Series.isin(values)]: as [==], except that NaN matches NaN. *)
Definition isin_eqb (a b : value) : bool :=
  match a, b with
  | VNaN, VNaN => true
  | _, _ => py_eqb a b
  end.

Definition isin (col vals : list value) : list bool :=
  map (fun v => existsb (isin_eqb v) vals) col.

(** Decimal numerals. *)
Definition str_Z (z : Z) : string := NilZero.string_of_int (Z.to_int z).

Definition parse_int (s : string) : option Z :=
  option_map Z.of_int (NilZero.int_of_string s).

(** [Series.astype(int)], cell by cell: a string must be a decimal
    numeral, NaN cannot be converted. *)
Definition astype_int_cell (v : value) : result value :=
  match v with
  | VInt z => Ok (VInt z)
  | VStr s => match parse_int s with
              | Some z => Ok (VInt z)
              | None => Raise ValueError
              end
  | VNaN => Raise ValueError
  | VList _ | VGeom _ => Raise TypeError
  end.

Definition astype_int (col : list value) : result (list value) :=
  mapM astype_int_cell col.

(** [df.append(other)]: the rows of [df], then the rows of [other]; a
    column missing on one side is filled with NaN there.  (pandas may
    order the columns differently; nothing below depends on their order.) *)
Definition column_or_nan (df : DataFrame) (c : label) : list value :=
  match lookup_col (df_columns df) c with
  | Some col => col
  | None => repeat VNaN (List.length (df_index df))
  end.

Definition append (df other : DataFrame) : DataFrame :=
  let labels :=
    map fst (df_columns df) ++
    filter (fun l => negb (existsb (label_eqb l) (map fst (df_columns df))))
           (map fst (df_columns other)) in
  mkDF (df_index df ++ df_index other)
       (map (fun l => (l, column_or_nan df l ++ column_or_nan other l)) labels).

(** [pd.melt(frame, id_vars, value_vars, var_name, value_name)]: one row
    per row of [frame] and value column; the identifier columns are tiled,
    the variable column holds the labels of the value columns, the value
    column their cells.  A nested list among [id_vars] cannot be used as a
    key ([TypeError]); a label that is no column is a [KeyError]. *)
Definition label_value (l : label) : value :=
  match l with
  | LStr s => VStr s
  | LInt z => VInt z
  end.

Definition melt (frame : DataFrame) (id_vars : list id_var)
  (value_vars : list label) (var_name value_name : label) : result DataFrame :=
  ids <- mapM (fun v => match v with
                        | IdLabel l => Ok l
                        | IdList _ => Raise TypeError
                        end) id_vars ;;
  id_cols <- mapM (fun l => c <- get_col frame l ;; Ok (l, c)) ids ;;
  val_cols <- mapM (get_col frame) value_vars ;;
  let n := List.length (df_index frame) in
  let k := List.length value_vars in
  let tiled := fold_left (fun acc lc => set_col acc (fst lc) (concat (repeat (snd lc) k)))
                         id_cols [] in
  let var_col := concat (map (fun l => repeat (label_value l) n) value_vars) in
  Ok (mkDF (range_index (n * k))
           (set_col (set_col tiled var_name var_col) value_name (concat val_cols))).

(** ** CSV files *)

(** The text of a CSV file, column by column: header and fields. *)
Definition csv : Type := list (string * list string).

(** The field [to_csv] writes for a cell: NaN is the empty field. *)
Definition cell_text (v : value) : string :=
  match v with
  | VInt z => str_Z z
  | VStr s => s
  | VNaN => EmptyString
  | VList l => list_repr l
  | VGeom g => wkt g
  end.

Definition label_text (l : label) : string :=
  match l with
  | LStr s => s
  | LInt z => str_Z z
  end.

(** [df.to_csv(path, index=False)]: the index is not written. *)
Definition to_csv_text (df : DataFrame) : csv :=
  map (fun lc => (label_text (fst lc), map cell_text (snd lc))) (df_columns df).

Definition is_blank (t : string) : bool :=
  match t with EmptyString => true | _ => false end.

(** The type [read_csv] infers for a column: integers when every field
    that is not empty is a decimal numeral, text otherwise; an empty field
    is NaN.  (An integer column with NaN is read as floats, which compare
    equal to the integers; other float columns are kept as their text.) *)
Definition infer_column (cells : list string) : list value :=
  if forallb (fun t => is_blank t || match parse_int t with Some _ => true | None => false end) cells
  then map (fun t => match parse_int t with Some z => VInt z | None => VNaN end) cells
  else map (fun t => if is_blank t then VNaN else VStr t) cells.

Definition csv_rows (f : csv) : nat :=
  match f with
  | [] => 0%nat
  | (_, cells) :: _ => List.length cells
  end.

(** [pd.read_csv(path)] on the text of the file. *)
Definition read_csv_text (f : csv) : DataFrame :=
  mkDF (range_index (csv_rows f))
       (map (fun hc => (LStr (fst hc), infer_column (snd hc))) f).

End Pandas.

(** ** The functions of [isochroner.py] *)

Section Isochroner.
Context {num : Type} {NUM : PyNum num} {GEO : Shapely num}.

#[local] Abbreviation value := (value num).
#[local] Abbreviation DataFrame := (DataFrame num).
#[local] Abbreviation polygon := (polygon num).

(** [isocronut.get_isochrone(origin, key, duration, tolerance)], the
    routing collaborator: its answer, or the exception it raises, as a
    function of its arguments during one call of the module. *)
Variable get_isochrone :
  value -> string -> duration -> Z -> result (list (num * num)).

(** [get_centroids(gdf)]: the list of [[lat, lng]] of the centroids, that
    is [[y, x]].  A cell of the geometry column that is no geometry has no
    [centroid] attribute. *)
Definition geom_of (v : value) : result polygon :=
  match v with
  | VGeom g => Ok g
  | _ => Raise AttributeError
  end.

Definition get_centroids (gdf : DataFrame) : result (list (list num)) :=
  geoms <- get_col gdf "geometry" ;;
  x <- mapM (fun v => g <- geom_of v ;; Ok (fst (centroid g))) geoms ;;
  y <- mapM (fun v => g <- geom_of v ;; Ok (snd (centroid g))) geoms ;;
  Ok (map (fun i => [fst i; snd i]) (combine y x)).

(** [geometry.Polygon(coords)]: shapely refuses a ring of one or two
    coordinate tuples; no tuple at all is the empty polygon. *)
Definition Polygon (coords : list (num * num)) : result polygon :=
  match coords with
  | [_] | [_; _] => Raise ValueError
  | _ => Ok (MkPolygon coords)
  end.

(** Lines 61-66: the polygons of the filtered sets, [[p[1], p[0]]] for
    each point when [swap_xy] holds, [[p[0], p[1]]] otherwise. *)
Definition iso_polys (swap_xy : bool) (iso_points : list (list (num * num)))
  : result (list polygon) :=
  if swap_xy
  then mapM (fun x => Polygon (map (fun p => (snd p, fst p)) x)) iso_points
  else mapM (fun x => Polygon (map (fun p => (fst p, snd p)) x)) iso_points.

Definition iterate_isochrones (coords : list value) (key : string)
  (duration : duration) (swap_xy : bool) : result (list polygon) :=
  iso_points <- mapM (fun x => get_isochrone x key duration 2) coords ;;
  iso_points <- check_isochrones iso_points std_devs_default ;;
  iso_polys swap_xy iso_points.

(** [x[::-1]] on a cell of the coords column. *)
Definition reversed (v : value) : result value :=
  match v with
  | VList l => Ok (VList (rev l))
  | VStr s => Ok (VStr (string_of_list_ascii (rev (list_ascii_of_string s))))
  | _ => Raise TypeError
  end.

(** One turn of the loop at lines 92-96. *)
Definition add_duration (gdf : DataFrame) (key : string) (keep_cols : keep)
  (swap_xy : bool) (df : DataFrame) (length : Z) : result DataFrame :=
  coords <- get_col df "coords" ;;
  iso <- iterate_isochrones coords key (DInt length) swap_xy ;;
  df <- setitem_list df (LInt length) (map VGeom iso) ;;
  df <- set_index df (df_index gdf) ;;
  setitem_keep df gdf keep_cols.

(** [for x in l: acc = f(acc, x)], stopping at the first exception. *)
Fixpoint foldM {A B : Type} (f : A -> B -> result A) (l : list B) (acc : A)
  : result A :=
  match l with
  | [] => Ok acc
  | x :: xs => acc' <- f acc x ;; foldM f xs acc'
  end.

(** [type(duration) is int or (type(duration) is list and len(duration) == 1)] *)
Definition single_duration (d : duration) : bool :=
  match d with
  | DInt _ => true
  | DList [_] => true
  | DList _ => false
  end.

Definition shp_to_isochrones (gdf : DataFrame) (key : string)
  (duration : duration) (keep_cols : keep) (swap_xy : bool)
  : result DataFrame :=
  coords <- get_centroids gdf ;;
  df <- setitem_list empty_df "coords" (map VList coords) ;;
  if single_duration duration then
    (* df['duration'] = duration: a scalar is broadcast, a list is a column *)
    df <- match duration with
          | DInt d => Ok (setitem_scalar df "duration" (VInt d))
          | DList ds => setitem_list df "duration" (map VInt ds)
          end ;;
    df <- match keep_cols with
          | KNone => Ok df
          | _ => df <- set_index df (df_index gdf) ;;
                 setitem_keep df gdf keep_cols
          end ;;
    coords <- get_col df "coords" ;;
    iso <- iterate_isochrones coords key duration swap_xy ;;
    setitem_list df "geometry" (map VGeom iso)
  else
    df <- foldM (add_duration gdf key keep_cols swap_xy)
                match duration with DInt d => [d] | DList ds => ds end df ;;
    df <- (if swap_xy then
             coords <- get_col df "coords" ;;
             coords <- mapM reversed coords ;;
             setitem_list df "coords" coords
           else Ok df) ;;
    (* [keep_cols is not isinstance(keep_cols, list)] holds for every
       [keep_cols] that is not None: the value is appended as one element *)
    let id_vars :=
      IdLabel "coords" ::
      match keep_cols with
      | KNone => []
      | KStr s => [IdLabel (LStr s)]
      | KList l => [IdList (map LStr l)]
      end in
    let cols := filter is_int_label (map fst (df_columns df)) in
    melt df id_vars cols "duration" "geometry".

(** *** The batch run

    [isochrone_batch] works on two things that outlive it: the caller's
    table object [gdf], which it assigns into, and the file system. *)
Record world : Type := mkWorld {
  table : DataFrame;
  files : string -> option csv
}.

(** A statement: it may change the world, and it may raise; what it did
    before raising stays done. *)
Definition stmt (A : Type) : Type := world -> result A * world.

Definition ret {A : Type} (a : A) : stmt A := fun w => (Ok a, w).

Definition seq_stmt {A B : Type} (c : stmt A) (k : A -> stmt B) : stmt B :=
  fun w =>
    match c w with
    | (Ok a, w') => k a w'
    | (Raise e, w') => (Raise e, w')
    end.

Definition lift {A : Type} (r : result A) : stmt A := fun w => (r, w).

Notation "x <~ c1 ;; c2" := (seq_stmt c1 (fun x => c2))
  (at level 61, c1 at next level, right associativity) : py_scope.

Definition get_table : stmt DataFrame := fun w => (Ok (table w), w).

Definition put_table (df : DataFrame) : stmt unit :=
  fun w => (Ok tt, mkWorld df (files w)).

(** [os.path.exists(path)] *)
Definition path_exists (path : string) : stmt bool :=
  fun w => (Ok (match files w path with Some _ => true | None => false end), w).

(** [df.to_csv(path, index=False)] *)
Definition to_csv (df : DataFrame) (path : string) : stmt unit :=
  fun w => (Ok tt,
            mkWorld (table w)
                    (fun p => if String.eqb p path then Some (to_csv_text df)
                              else files w p)).

(** [pd.read_csv(path)]; a missing file raises. *)
Definition read_csv (path : string) : stmt DataFrame :=
  fun w => (match files w path with
            | Some f => Ok (read_csv_text f)
            | None => Raise (ExternalError "FileNotFoundError")
            end, w).

(** [for x in l: body(x)] *)
Fixpoint for_each {A : Type} (body : A -> stmt unit) (l : list A) : stmt unit :=
  match l with
  | [] => ret tt
  | x :: xs => _ <~ body x ;; for_each body xs
  end.

(** Lines 165-166: [[item for item in gdf[mv] if item not in set(out_df[mv])]] *)
Definition unfinished_idx (gdf out_df : DataFrame) (matching_var : string)
  : result (list value) :=
  items <- get_col gdf matching_var ;;
  filterM (fun item =>
             done <- get_col out_df matching_var ;;
             b <- py_in item done ;;
             Ok (negb b)) items.

(** Line 167: [gdf[gdf[mv].isin(unfinished_idx)]] *)
Definition gdf_unfinished (gdf : DataFrame) (matching_var : string)
  (unfinished : list value) : result DataFrame :=
  items <- get_col gdf matching_var ;;
  Ok (select_rows gdf (isin items unfinished)).

(** Lines 169-172, for one chunk ([print] writes to the terminal only). *)
Definition process_chunk (key out_filename : string) (duration : duration)
  (keep_cols : keep) (batch_items : DataFrame) : stmt unit :=
  batch_df <~ lift (shp_to_isochrones batch_items key duration keep_cols true) ;;
  out <~ read_csv out_filename ;;
  to_csv (append out batch_df) out_filename.

(** Lines 158-164: the table of finished rows.  A new file gets the
    header alone; with an existing file the identifier column of the
    caller's table is coerced to integers, in place. *)
Definition open_ledger (out_filename matching_var : string) : stmt DataFrame :=
  found <~ path_exists out_filename ;;
  if negb found then
    let out_df := setitem_scalar empty_df matching_var (VStr EmptyString) in
    _ <~ to_csv out_df out_filename ;;
    ret out_df
  else
    out_df <~ read_csv out_filename ;;
    gdf <~ get_table ;;
    ids <~ lift (get_col gdf matching_var) ;;
    ids <~ lift (astype_int ids) ;;
    gdf <~ lift (setitem_list gdf matching_var ids) ;;
    _ <~ put_table gdf ;;
    ret out_df.

(** Lines 158-168: the chunks the loop is going to process. *)
Definition pending_chunks (out_filename matching_var : string) (batch_size : Z)
  : stmt (list DataFrame) :=
  out_df <~ open_ledger out_filename matching_var ;;
  gdf <~ get_table ;;
  unfinished <~ lift (unfinished_idx gdf out_df matching_var) ;;
  todo <~ lift (gdf_unfinished gdf matching_var unfinished) ;;
  lift (batch todo batch_size).

Definition isochrone_batch (key out_filename matching_var : string)
  (duration : duration) (keep_cols : keep) (batch_size : Z) : stmt unit :=
  chunks <~ pending_chunks out_filename matching_var batch_size ;;
  for_each (process_chunk key out_filename duration keep_cols) chunks.

End Isochroner.

Arguments world : clear implicits.

(** * [isochrones_to_shp]

    The function reads a table of isochrones, such as the CSV file of a
    batch run read back by [pd.read_csv], and writes one record per row
    through fiona.  It works on the caller's table object, which it
    assigns into, and on the files fiona writes. *)

(** A record handed to [c.write]: the geometry and the properties [id],
    [coords] and [duration] of [iso_schema]. *)
Record feature (num : Type) : Type := mkFeature {
  feat_geometry : polygon num;
  feat_id : value num;
  feat_coords : string;
  feat_duration : Z
}.
Arguments mkFeature {num} feat_geometry feat_id feat_coords feat_duration.
Arguments feat_geometry {num} f.
Arguments feat_id {num} f.
Arguments feat_coords {num} f.
Arguments feat_duration {num} f.

(** A file written through [fiona.open(path, 'w', driver, schema)]: the
    driver, the [crs] handed to [fiona.open], and the records written
    before the collection was closed. *)
Record collection (num : Type) : Type := mkCollection {
  coll_driver : string;
  coll_crs : option string;
  coll_records : list (feature num)
}.
Arguments mkCollection {num} coll_driver coll_crs coll_records.
Arguments coll_driver {num} c.
Arguments coll_crs {num} c.
Arguments coll_records {num} c.

(** The caller's table and the files fiona has written. *)
Record shp_world (num : Type) : Type := mkShp {
  frame : DataFrame num;
  shapes : string -> option (collection num)
}.
Arguments mkShp {num} frame shapes.
Arguments frame {num} s.
Arguments shapes {num} s.

Section ToShapefile.
Context {num : Type} {NUM : PyNum num} {GEO : Shapely num}.

(** What the function asks of its libraries: [wkt.loads] (the text of a
    polygon; other geometry types are outside this model), Python's [int]
    on text, and the drivers fiona can write with. *)
Variable wkt_loads : string -> result (polygon num).
Variable int_of_text : string -> result Z.
Variable writable : string -> bool.

(** [str(v)] of a cell; NaN prints as [nan]. *)
Definition py_str (v : value num) : string :=
  match v with
  | VNaN => "nan"
  | _ => cell_text v
  end.

(** [int(v)] of a cell. *)
Definition py_int (v : value num) : result Z :=
  match v with
  | VInt z => Ok z
  | VStr s => int_of_text s
  | VNaN => Raise ValueError
  | VList _ | VGeom _ => Raise TypeError
  end.

(** [geo[c]] for the row at position [i]: [KeyError] when the table has
    no column [c]. *)
Definition row_cell (df : DataFrame num) (c : label) (i : nat) : result (value num) :=
  col <- get_col df c ;;
  item_at col i.

(** Lines 135-139: the record of one row, its fields computed in the
    order the dictionary display lists them. *)
Definition row_feature (df : DataFrame num) (i : nat) (index : value num)
  : result (feature num) :=
  g <- row_cell df "geometry" i ;;
  g <- geom_of g ;;
  c <- row_cell df "coords" i ;;
  d <- row_cell df "duration" i ;;
  d <- py_int d ;;
  Ok (mkFeature g index (py_str c) d).

(** Lines 133-139: the loop over [df.iterrows()]; the records written
    before an exception stay written. *)
Fixpoint write_rows (df : DataFrame num) (rows : list (nat * value num))
  (written : list (feature num)) : result unit * list (feature num) :=
  match rows with
  | [] => (Ok tt, written)
  | (i, index) :: rest =>
      match row_feature df i index with
      | Ok f => write_rows df rest (written ++ [f])
      | Raise e => (Raise e, written)
      end
  end.

(** Line 122: the geometries [wkt.loads] reads from the text of the
    cells of the geometry column. *)
Definition loaded (df : DataFrame num) : result (list (polygon num)) :=
  cells <- get_col df "geometry" ;;
  mapM (fun v => wkt_loads (py_str v)) cells.

(** [df.iterrows()]: positions and index labels. *)
Definition iterrows (df : DataFrame num) : list (nat * value num) :=
  combine (seq 0 (List.length (df_index df))) (df_index df).

Definition isochrones_to_shp (filename : string) (crs : Z) (format : string)
  (w : shp_world num) : result unit * shp_world num :=
  match loaded (frame w) with
  | Raise e => (Raise e, w)
  | Ok geoms =>
      (* df['geometry'] = ...: the caller's table is assigned into *)
      let df := mkDF (df_index (frame w))
                     (set_col (df_columns (frame w)) "geometry" (map VGeom geoms)) in
      (* the GeoDataFrame carries the crs; fiona.open is not given it *)
      let gdf := (df, ("epsg:" ++ str_Z crs)%string) in
      if writable format then
        let (r, written) := write_rows (fst gdf) (iterrows (fst gdf)) [] in
        (r, mkShp df (fun p => if String.eqb p filename
                               then Some (mkCollection format None written)
                               else shapes w p))
      else (Raise (ExternalError "DriverError"), mkShp df (shapes w))
  end.

End ToShapefile.

(** ** Instances *)

(** *** IEEE doubles, the numbers Python computes with *)

Definition float_of_Z (z : Z) : float :=
  match z with
  | Z0 => 0%float
  | Zpos p => SF2Prim (S754_finite false p 0)
  | Zneg p => SF2Prim (S754_finite true p 0)
  end.

#[export] Instance float_PyNum : PyNum float := {
  of_int := float_of_Z;
  nadd := PrimFloat.add;
  nsub := PrimFloat.sub;
  nmul := PrimFloat.mul;
  ndiv := PrimFloat.div;
  nabs := PrimFloat.abs;
  nsqrt := PrimFloat.sqrt;
  nltb := PrimFloat.ltb;
  nzerob := fun x => PrimFloat.eqb x 0%float
}.

(** The exact value of a double as text: [n.0] for an integer, mantissa
    and binary exponent otherwise (Python prints the shortest decimal that
    reads back as the same double). *)
Fixpoint odd_part (m : positive) (e : Z) : positive * Z :=
  match m with
  | xO m' => odd_part m' (e + 1)
  | _ => (m, e)
  end.

Definition float_text (f : float) : string :=
  match Prim2SF f with
  | S754_zero s => if s then "-0.0" else "0.0"
  | S754_infinity s => if s then "-inf" else "inf"
  | S754_nan => "nan"
  | S754_finite s m e =>
      let sign := if s then "-" else EmptyString in
      let me := odd_part m e in
      if 0 <=? snd me
      then (sign ++ str_Z (Z.pos (fst me) * 2 ^ snd me) ++ ".0")%string
      else (sign ++ str_Z (Z.pos (fst me)) ++ "*2**" ++ str_Z (snd me))%string
  end.

Definition join (sep : string) (l : list string) : string :=
  match l with
  | [] => EmptyString
  | x :: xs => fold_left (fun acc s => (acc ++ sep ++ s)%string) xs x
  end.

(** The planar centroid of a simple polygon, by the signed area formula. *)
Definition cross (p q : float * float) : float :=
  (fst p * snd q - fst q * snd p)%float.

Fixpoint ring_sums (l : list (float * float)) : float * float * float :=
  match l with
  | p :: (q :: _) as rest =>
      let '(a, sx, sy) := ring_sums rest in
      ((a + cross p q)%float,
       (sx + (fst p + fst q) * cross p q)%float,
       (sy + (snd p + snd q) * cross p q)%float)
  | _ => (0%float, 0%float, 0%float)
  end.

Definition close_ring (l : list (float * float)) : list (float * float) :=
  match l with
  | [] => []
  | p :: _ => l ++ [p]
  end.

Definition float_centroid (g : polygon float) : float * float :=
  let '(a, sx, sy) := ring_sums (close_ring (exterior g)) in
  ((sx / (3 * a))%float, (sy / (3 * a))%float).

#[export] Instance float_Shapely : Shapely float := {
  centroid := float_centroid;
  wkt := fun g =>
    ("POLYGON ((" ++
     join ", " (map (fun p => float_text (fst p) ++ " " ++ float_text (snd p))
                    (close_ring (exterior g))) ++ "))")%string;
  list_repr := fun l => ("[" ++ join ", " (map float_text l) ++ "]")%string
}.

(** *** Exact real arithmetic *)


(** ** Sample data *)

(** The square of side 2 whose lower left corner is [(x, y)]. *)
Definition square (x y : Z) : polygon float :=
  MkPolygon (map (fun p => (float_of_Z (fst p), float_of_Z (snd p)))
                 [(x, y); (x + 2, y); (x + 2, y + 2); (x, y + 2)]).

(** A routing collaborator that answers every request with the eight
    points at distance 1 around the origin [[lat, lng]]. *)
Definition ring_route (origin : value float) (key : string) (d : duration)
  (tolerance : Z) : result (list (float * float)) :=
  match origin with
  | VList [lat; lng] =>
      Ok (map (fun p => ((lat + float_of_Z (fst p))%float,
                         (lng + float_of_Z (snd p))%float))
              [(1, 0); (1, 1); (0, 1); (-1, 1); (-1, 0); (-1, -1); (0, -1); (1, -1)])
  | _ => Raise (ExternalError "bad origin")
  end.

(** A table of [n] squares with identifiers [first], [first + 1], ... in
    column GEOID. *)
Definition sample_gdf (ids : list (value float)) : DataFrame float :=
  mkDF (range_index (List.length ids))
       [(LStr "GEOID", ids);
        (LStr "geometry",
         map (fun i => VGeom (square (4 * Z.of_nat i) 0)) (seq 0 (List.length ids)))].

Definition no_files : string -> option csv := fun _ => None.

(** A collaborator that is out of quota at the origins of longitude 9 and
    answers like [ring_route] elsewhere. *)
Definition quota_route (origin : value float) (key : string) (d : duration)
  (tolerance : Z) : result (list (float * float)) :=
  match origin with
  | VList [lat; lng] =>
      if PrimFloat.eqb lng 9%float then Raise (ExternalError "quota")
      else ring_route origin key d tolerance
  | _ => ring_route origin key d tolerance
  end.

(** The file system with one file. *)
Definition one_file (path : string) (f : csv) : string -> option csv :=
  fun p => if String.eqb p path then Some f else None.

(** * Properties *)

(** ** Comprehensions *)

Lemma bind_ok {A B : Type} (r : result A) (k : A -> result B) (b : B) :
  bind r k = Ok b -> exists a, r = Ok a /\ k a = Ok b.
Proof. destruct r as [a|e]; cbn; [|discriminate]. intros H. now exists a. Qed.

Ltac bind_inv H x Hx :=
  let H' := fresh in
  destruct (bind_ok _ _ _ H) as (x & Hx & H'); clear H; rename H' into H.

Section Comprehensions.
Context {A B : Type}.

Lemma mapM_app (f : A -> result B) (l1 l2 : list A) :
  mapM f (l1 ++ l2) =
  (x <- mapM f l1 ;; y <- mapM f l2 ;; Ok (x ++ y)).
Proof.
  induction l1 as [|a l1 IH]; cbn.
  - destruct (mapM f l2); reflexivity.
  - destruct (f a); cbn; [|reflexivity].
    rewrite IH. destruct (mapM f l1); cbn; [|reflexivity].
    destruct (mapM f l2); reflexivity.
Qed.

Lemma mapM_total (f : A -> result B) (g : A -> B) (l : list A) :
  (forall x, In x l -> f x = Ok (g x)) -> mapM f l = Ok (map g l).
Proof.
  induction l as [|a l IH]; intros H; cbn; [reflexivity|].
  rewrite (H a) by now left. cbn. rewrite IH by (intros; apply H; now right).
  reflexivity.
Qed.

Lemma mapM_length (f : A -> result B) (l : list A) (r : list B) :
  mapM f l = Ok r -> List.length r = List.length l.
Proof.
  revert r; induction l as [|a l IH]; cbn; intros r H.
  - now inversion H.
  - destruct (f a); cbn in H; [|discriminate].
    destruct (mapM f l); cbn in H; [|discriminate].
    inversion H; subst; cbn. now rewrite (IH _ eq_refl).
Qed.

Lemma filterM_total (p : A -> result bool) (q : A -> bool) (l : list A) :
  (forall x, In x l -> p x = Ok (q x)) -> filterM p l = Ok (filter q l).
Proof.
  induction l as [|a l IH]; intros H; cbn; [reflexivity|].
  rewrite (H a) by now left. cbn. rewrite IH by (intros; apply H; now right).
  cbn. destruct (q a); reflexivity.
Qed.

End Comprehensions.



(** ** [batch] cuts a sequence into chunks *)

Section BatchFacts.
Context {A : Type}.
Implicit Types (l : list A) (m k i : nat).

(** The chunk that starts at position [i * m]. *)
Definition chunk_at l m i : list A :=
  firstn (Nat.min (i * m + m) (List.length l) - i * m) (skipn (i * m) l).

Lemma firstn_then_firstn l a b :
  firstn a l ++ firstn b (skipn a l) = firstn (a + b) l.
Proof.
  revert l; induction a as [|a IH]; intros [|x l]; cbn; try reflexivity.
  - now rewrite firstn_nil.
  - now rewrite IH.
Qed.

Lemma chunk_count_spec (n m : nat) :
  (1 <= m)%nat ->
  let k := ((n + m - 1) / m)%nat in
  (n <= k * m)%nat /\ (forall i, (i < k)%nat -> (i * m < n)%nat).
Proof.
  intros Hm k. subst k.
  pose proof (Nat.div_mod_eq (n + m - 1) m) as E.
  pose proof (Nat.mod_upper_bound (n + m - 1) m ltac:(lia)) as B.
  split; [nia|]. intros i Hi. nia.
Qed.

Lemma length_chunk_at l m i :
  List.length (chunk_at l m i) = (Nat.min (i * m + m) (List.length l) - i * m)%nat.
Proof.
  unfold chunk_at. rewrite length_firstn, length_skipn. lia.
Qed.

Lemma concat_chunks l m k :
  (forall i, (i < k)%nat -> (i * m < List.length l)%nat) ->
  concat (map (chunk_at l m) (seq 0 k)) = firstn (Nat.min (k * m) (List.length l)) l.
Proof.
  induction k as [|k IH]; intros Hk.
  - reflexivity.
  - rewrite seq_S, map_app, concat_app, IH by (intros; apply Hk; lia).
    cbn [map concat Nat.add]. rewrite app_nil_r. unfold chunk_at.
    specialize (Hk k ltac:(lia)).
    replace (Nat.min (k * m) (List.length l)) with (k * m)%nat by lia.
    rewrite firstn_then_firstn. f_equal. lia.
Qed.

End BatchFacts.

(** The slices [batch] cuts. *)
Definition slices {T : Type} {S : Sliceable T} (x : T) (m : nat) : list T :=
  map (fun i => slice x (i * m) (Nat.min (i * m + m) (len x)))
      (seq 0 ((len x + m - 1) / m)).

Lemma batch_slices {T : Type} {S : Sliceable T} (x : T) (m : nat) :
  (1 <= m)%nat ->
  batch x (Z.of_nat m) =
  Ok (slices x m).
Proof.
  intros Hm. unfold batch, py_range.
  destruct (Z.eqb_spec (Z.of_nat m) 0) as [E|_]; [lia|].
  destruct (Z.ltb_spec 0 (Z.of_nat m)) as [_|E]; [|lia].
  cbn [bind]. rewrite map_map. f_equal.
  replace (Z.of_nat (len x) - 0 + Z.of_nat m - 1)
    with (Z.of_nat (len x + m - 1)) by lia.
  rewrite <- Nat2Z.inj_div, Nat2Z.id.
  apply map_ext; intros i.
  replace (Z.to_nat (0 + Z.of_nat i * Z.of_nat m)) with (i * m)%nat by lia.
  replace (Z.to_nat (Z.min (0 + Z.of_nat i * Z.of_nat m + Z.of_nat m)
                           (Z.of_nat (len x))))
    with (Nat.min (i * m + m) (len x)) by lia.
  reflexivity.
Qed.

Lemma slices_list {A : Type} (l : list A) (m : nat) :
  slices l m = map (chunk_at l m) (seq 0 ((List.length l + m - 1) / m)).
Proof. reflexivity. Qed.

Lemma concat_slices {A : Type} (l : list A) (m : nat) :
  (1 <= m)%nat -> concat (slices l m) = l.
Proof.
  intros Hm. rewrite slices_list.
  destruct (chunk_count_spec (List.length l) m Hm) as [Hcover Hstart].
  rewrite concat_chunks by assumption.
  apply firstn_all2. lia.
Qed.

(** C8: for a batch size [n >= 1], [batch] cuts a sequence into contiguous
    chunks whose concatenation is the sequence; no chunk is empty or longer
    than [n], every chunk but the last has exactly [n] elements; seven
    records and a batch size of three give chunks of sizes 3, 3 and 1. *)
Theorem batch_partitions (A : Type) (l : list A) (n : Z) :
  1 <= n ->
  exists chunks,
    batch l n = Ok chunks /\
    concat chunks = l /\
    Forall (fun c => (1 <= List.length c)%nat /\ Z.of_nat (List.length c) <= n) chunks /\
    (forall i, (S i < List.length chunks)%nat ->
               Z.of_nat (List.length (nth i chunks [])) = n) /\
    (List.length l = 7%nat -> n = 3 ->
     map (@List.length A) chunks = [3; 3; 1]%nat).
Proof.
  intros Hn.
  assert (exists m, n = Z.of_nat m /\ (1 <= m)%nat) as (m & -> & Hm)
    by (exists (Z.to_nat n); lia).
  destruct (chunk_count_spec (List.length l) m Hm) as [Hcover Hstart].
  set (k := ((List.length l + m - 1) / m)%nat) in *.
  exists (map (chunk_at l m) (seq 0 k)).
  split; [now rewrite batch_slices, slices_list|].
  split.
  { rewrite concat_chunks by assumption.
    rewrite firstn_all2; [reflexivity|lia]. }
  split.
  { apply Forall_forall. intros c Hc.
    apply in_map_iff in Hc as (i & <- & Hi). apply in_seq in Hi.
    rewrite length_chunk_at. specialize (Hstart i ltac:(lia)). lia. }
  split.
  { intros i Hi. rewrite length_map, length_seq in Hi.
    rewrite nth_indep with (d' := chunk_at l m 0%nat)
      by (rewrite length_map, length_seq; lia).
    rewrite (map_nth (chunk_at l m)), seq_nth by lia.
    cbn [Nat.add]. rewrite length_chunk_at.
    specialize (Hstart (S i) ltac:(lia)). lia. }
  intros H7 H3.
  assert (m = 3%nat) by lia. subst m. subst k.
  rewrite map_map. rewrite H7. cbn [Nat.add Nat.sub Nat.div Nat.divmod fst seq map].
  rewrite !length_chunk_at, H7. reflexivity.
Qed.

Lemma batch_partitions_witness :
  exists chunks,
    batch [1; 2; 3; 4; 5; 6; 7] 3 = Ok chunks /\
    concat chunks = [1; 2; 3; 4; 5; 6; 7] /\
    Forall (fun c => (1 <= List.length c)%nat /\ Z.of_nat (List.length c) <= 3) chunks /\
    (forall i, (S i < List.length chunks)%nat ->
               Z.of_nat (List.length (nth i chunks [])) = 3) /\
    (List.length [1; 2; 3; 4; 5; 6; 7] = 7%nat -> 3 = 3 ->
     map (@List.length Z) chunks = [3; 3; 1]%nat).
Proof. apply (batch_partitions Z [1; 2; 3; 4; 5; 6; 7] 3). lia. Defined.

(** ** The outlier filter *)

Section Filter.
Context {num : Type} {NUM : PyNum num}.
Implicit Types (pts : list (num * num)) (k : num).








Lemma fixed_isos_one_point k (p : num * num) :
  fixed_isos k [p] = Raise StatisticsError.
Proof. reflexivity. Qed.

(** C7, amended: an input that contains a set of exactly one point makes
    the filter raise and return nothing; when the sets before it pass, the
    exception is the [StatisticsError] of [stdev]. *)
Theorem one_point_set_fails (pre post : list (list (num * num))) pts k :
  List.length pts = 1%nat ->
  (exists e, check_isochrones (pre ++ pts :: post) k = Raise e) /\
  (forall r, check_isochrones pre k = Ok r ->
             check_isochrones (pre ++ pts :: post) k = Raise StatisticsError).
Proof.
  intros Hlen. destruct pts as [|p [|q pts]]; try discriminate.
  unfold check_isochrones. rewrite mapM_app. cbn [mapM].
  rewrite fixed_isos_one_point.
  destruct (mapM (fixed_isos k) pre) as [r|e]; cbn.
  - split; [now exists StatisticsError|]. reflexivity.
  - split; [now exists e|]. intros r H; discriminate.
Qed.

End Filter.

(** A set of ten points; the last one lies 2.8 standard deviations north
    of the mean latitude. *)
Definition ten_points : list (float * float) :=
  map (fun p => (float_of_Z (fst p), float_of_Z (snd p)))
      [(0, 0); (0, 1); (0, 2); (0, 3); (0, 4); (0, 5); (0, 6); (0, 7); (0, 8); (10, 9)].


Example outlier_removed :
  check_isochrones [ten_points] std_devs_default = Ok [firstn 9 ten_points].
Proof. vm_compute. reflexivity. Qed.

(** An empty set is returned as it is: [zip] yields no tuple, so neither
    [mean] nor [stdev] is called, and the comprehension has nothing to
    test. *)
Lemma empty_set_passes :
  check_isochrones [[]; ten_points] std_devs_default = Ok [[]; firstn 9 ten_points].
Proof. vm_compute. reflexivity. Qed.

Lemma one_point_set_fails_witness :
  (exists e, check_isochrones ([ten_points] ++ [(1%float, 2%float)] :: [])
                              std_devs_default = Raise e) /\
  (forall r, check_isochrones [ten_points] std_devs_default = Ok r ->
             check_isochrones ([ten_points] ++ [(1%float, 2%float)] :: [])
                              std_devs_default = Raise StatisticsError).
Proof.
  apply (one_point_set_fails [ten_points] [] [(1%float, 2%float)] std_devs_default).
  reflexivity.
Defined.

(** ** Sets without spread, in exact arithmetic *)

Section ExactArithmetic.
Local Open Scope R_scope.
Implicit Types (data : list R) (pts : list (R * R)).















End ExactArithmetic.


(** The same on doubles, for a set that shares its lng. *)
Example constant_lng_on_doubles :
  check_isochrones [[(0%float, 5%float); (10%float, 5%float); (20%float, 5%float)]]
                   std_devs_default
  = Raise ZeroDivisionError.
Proof. vm_compute. reflexivity. Qed.

(** ** Coordinate order *)

Section Swap.
Context {num : Type} {NUM : PyNum num} {GEO : Shapely num}.





End Swap.

(** ** A list of one duration *)

(** C6: on a table of two rows the list [[15]] makes line 85 raise
    [ValueError] (a column of one value for an index of two), where the
    scalar [15] gives the wide table. *)
Theorem one_element_list_is_not_a_scalar :
  shp_to_isochrones ring_route (sample_gdf [VInt 11; VInt 12]) "key" (DList [15]) KNone true
    = Raise ValueError /\
  fmap (fun df => get_col df "duration")
       (shp_to_isochrones ring_route (sample_gdf [VInt 11; VInt 12]) "key" (DInt 15) KNone true)
    = Ok (Ok [VInt 15; VInt 15]).
Proof. split; vm_compute; reflexivity. Qed.

(** ** Tables: labels and columns *)

Lemma label_eqb_spec (a b : label) : reflect (a = b) (label_eqb a b).
Proof.
  destruct a as [s|x], b as [t|y]; cbn; try (constructor; congruence).
  - destruct (String.eqb_spec s t); constructor; congruence.
  - destruct (Z.eqb_spec x y); constructor; congruence.
Qed.

Lemma label_eqb_refl (a : label) : label_eqb a a = true.
Proof. now destruct (label_eqb_spec a a). Qed.

Lemma label_eqb_neq (a b : label) : a <> b -> label_eqb a b = false.
Proof. now destruct (label_eqb_spec a b). Qed.

Section Columns.
Context {num : Type}.
Implicit Types (cols : list (label * list (value num))) (c l : label)
  (col : list (value num)) (df : DataFrame num).

Lemma lookup_set_same cols c col : lookup_col (set_col cols c col) c = Some col.
Proof.
  induction cols as [|[l old] cols IH]; cbn.
  - now rewrite label_eqb_refl.
  - destruct (label_eqb l c) eqn:E; cbn; rewrite E; [reflexivity|exact IH].
Qed.

Lemma lookup_set_other cols c col l :
  c <> l -> lookup_col (set_col cols c col) l = lookup_col cols l.
Proof.
  intros Hne. induction cols as [|[l' old] cols IH]; cbn.
  - now rewrite label_eqb_neq.
  - destruct (label_eqb_spec l' c) as [->|Hc]; cbn.
    + now rewrite (label_eqb_neq c l).
    + destruct (label_eqb l' l); [reflexivity|exact IH].
Qed.

Lemma set_col_same cols c col :
  lookup_col cols c = Some col -> set_col cols c col = cols.
Proof.
  induction cols as [|[l old] cols IH]; cbn; [discriminate|].
  destruct (label_eqb_spec l c) as [->|Hc].
  - now intros [= ->].
  - intros H. now rewrite IH.
Qed.

Lemma set_col_labels cols c col :
  map fst (set_col cols c col) =
  if existsb (label_eqb c) (map fst cols) then map fst cols else map fst cols ++ [c].
Proof.
  induction cols as [|[l old] cols IH]; cbn; [reflexivity|].
  destruct (label_eqb_spec l c) as [->|Hc]; cbn.
  - now rewrite label_eqb_refl.
  - rewrite (label_eqb_neq c l) by congruence. cbn. rewrite IH.
    now destruct (existsb _ _).
Qed.

Lemma in_set_col cols c col l x :
  In (l, x) (set_col cols c col) -> (l = c /\ x = col) \/ In (l, x) cols.
Proof.
  induction cols as [|[l' old] cols IH]; cbn.
  - intros [[= <- <-]|[]]. now left.
  - destruct (label_eqb_spec l' c) as [->|Hc]; cbn.
    + intros [[= <- <-]|H]; [now left|right; now right].
    + intros [H|H]; [right; now left|].
      destruct (IH H) as [?|?]; [now left|right; now right].
Qed.

Lemma lookup_col_in cols c col : lookup_col cols c = Some col -> In (c, col) cols.
Proof.
  induction cols as [|[l old] cols IH]; cbn; [discriminate|].
  destruct (label_eqb_spec l c) as [->|Hc].
  - intros [= ->]. now left.
  - intros H. right. now apply IH.
Qed.

Lemma lookup_col_map (f : list (value num) -> list (value num)) cols c :
  lookup_col (map (fun lc => (fst lc, f (snd lc))) cols) c =
  option_map f (lookup_col cols c).
Proof.
  induction cols as [|[l old] cols IH]; cbn; [reflexivity|].
  destruct (label_eqb l c); [reflexivity|exact IH].
Qed.

(** Every column is as long as the index. *)
Definition wf_df df : Prop :=
  forall l col, In (l, col) (df_columns df) ->
                List.length col = List.length (df_index df).

(** Every label is a name. *)
Definition named df : Prop :=
  forall l, In l (map fst (df_columns df)) -> is_int_label l = false.

Lemma get_col_length df c col :
  wf_df df -> get_col df c = Ok col -> List.length col = List.length (df_index df).
Proof.
  unfold get_col. intros Hwf H.
  destruct (lookup_col (df_columns df) c) as [x|] eqn:E; [|discriminate].
  inversion H; subst. apply (Hwf c). now apply lookup_col_in.
Qed.

Lemma get_col_lookup df c col :
  get_col df c = Ok col <-> lookup_col (df_columns df) c = Some col.
Proof.
  unfold get_col. destruct (lookup_col _ c); split; intros H; inversion H; reflexivity.
Qed.

(** Assigning a list that fits the index. *)
Lemma setitem_list_fits df c col :
  List.length col = List.length (df_index df) ->
  setitem_list df c col = Ok (mkDF (df_index df) (set_col (df_columns df) c col)).
Proof.
  intros Hlen. unfold setitem_list, ensure_valid_index.
  destruct (df_index df) as [|i idx] eqn:E.
  - destruct col; [|discriminate]. cbn. now rewrite E.
  - rewrite E. now rewrite Hlen, Nat.eqb_refl.
Qed.

Lemma setitem_list_inv df c col df' :
  df_index df <> [] -> setitem_list df c col = Ok df' ->
  List.length col = List.length (df_index df) /\
  df' = mkDF (df_index df) (set_col (df_columns df) c col).
Proof.
  intros Hne. unfold setitem_list, ensure_valid_index.
  destruct (df_index df) as [|i idx] eqn:E; [congruence|].
  rewrite E. destruct (Nat.eqb_spec (List.length col) (List.length (i :: idx))); [|discriminate].
  intros [= <-]. now split.
Qed.

Lemma wf_set_col df c col :
  wf_df df -> List.length col = List.length (df_index df) ->
  wf_df (mkDF (df_index df) (set_col (df_columns df) c col)).
Proof.
  intros Hwf Hlen l x Hin. cbn in *.
  apply in_set_col in Hin as [[_ ->]|Hin]; [assumption|].
  now apply (Hwf l).
Qed.

End Columns.

(** ** The table of one chunk *)

(** The arguments of a run. *)
Definition reserved (s : string) : Prop :=
  s = "coords" \/ s = "duration" \/ s = "geometry".

Definition keep_names (k : keep) : list string :=
  match k with
  | KNone => []
  | KStr s => [s]
  | KList l => l
  end.

(** The durations a call asks for. *)
Definition requested (d : duration) : list Z :=
  match d with
  | DInt d => [d]
  | DList ds => ds
  end.

(** The durations in the order of their first occurrence. *)
Definition add_new (seen : list Z) (d : Z) : list Z :=
  if existsb (Z.eqb d) seen then seen else seen ++ [d].

Definition distinct (ds : list Z) : list Z := fold_left add_new ds [].

Section Builder.
Context {num : Type} {NUM : PyNum num} {GEO : Shapely num}.
Variable get_isochrone :
  value num -> string -> duration -> Z -> result (list (num * num)).
Implicit Types (df gdf : DataFrame num) (ids : list (value num)).

(** The rows a chunk contributes, as (identifier, duration) pairs. *)
Definition chunk_rows ids (ds : list Z) : list (value num * value num) :=
  flat_map (fun d => map (fun z => (z, VInt d)) ids) (distinct ds).

Lemma get_centroids_length gdf cs :
  get_centroids gdf = Ok cs ->
  exists geoms, get_col gdf "geometry" = Ok geoms /\ List.length cs = List.length geoms.
Proof.
  unfold get_centroids. intros H.
  bind_inv H geoms Hg. bind_inv H x Hx. bind_inv H y Hy.
  inversion H; subst. exists geoms. split; [assumption|].
  apply mapM_length in Hx, Hy.
  rewrite length_map, length_combine. lia.
Qed.

Lemma iterate_isochrones_length coords key d swap polys :
  iterate_isochrones get_isochrone coords key d swap = Ok polys ->
  List.length polys = List.length coords.
Proof.
  unfold iterate_isochrones, check_isochrones, iso_polys. intros H.
  bind_inv H a Ha. bind_inv H b Hb.
  apply mapM_length in Ha, Hb.
  destruct swap; apply mapM_length in H; lia.
Qed.

(** [df[names] = gdf[names]] when [df] carries the index of [gdf]. *)
Lemma copy_cols_fits df gdf names df' :
  wf_df gdf -> List.length (df_index df) = List.length (df_index gdf) ->
  copy_cols df gdf names = Ok df' ->
  exists cols,
    mapM (fun s => col <- get_col gdf (LStr s) ;; Ok (s, col)) names = Ok cols /\
    df' = mkDF (df_index df)
               (fold_left (fun cs sc => set_col cs (LStr (fst sc)) (snd sc))
                          cols (df_columns df)).
Proof.
  intros Hwf Hlen H. unfold copy_cols in H. bind_inv H cols Hcols.
  exists cols. split; [exact Hcols|].
  assert (Hfit : forall sc, In sc cols ->
                            List.length (snd sc) = List.length (df_index df)).
  { clear H. revert cols Hcols. induction names as [|s names IH]; cbn; intros cols Hc.
    - inversion Hc; subst. intros sc [].
    - bind_inv Hc y Hy. bind_inv Hc ys Hys. inversion Hc; subst.
      bind_inv Hy col Hcol. inversion Hy; subst.
      intros sc [<-|Hin]; [|now apply (IH ys)].
      cbn. rewrite Hlen. now apply (get_col_length gdf (LStr s)). }
  clear Hcols. destruct df as [idx cs]. cbn in *.
  revert cs H Hfit. induction cols as [|sc cols IH]; cbn; intros cs H Hfit.
  - now inversion H.
  - rewrite setitem_list_fits in H by (cbn; apply Hfit; now left). cbn in H.
    apply IH in H; [exact H|]. intros; apply Hfit; now right.
Qed.

Definition assign (l : label) (acc : option (list (value num)))
  (sc : string * list (value num)) : option (list (value num)) :=
  if label_eqb (LStr (fst sc)) l then Some (snd sc) else acc.

Lemma lookup_fold_set (cols : list (string * list (value num))) cs l :
  lookup_col (fold_left (fun cs sc => set_col cs (LStr (fst sc)) (snd sc)) cols cs) l
  = fold_left (assign l) cols (lookup_col cs l).
Proof.
  revert cs. induction cols as [|[t c] cols IH]; cbn; intros cs; [reflexivity|].
  rewrite IH. f_equal. unfold assign. cbn [fst snd].
  destruct (label_eqb_spec (LStr t) l) as [<-|Hne].
  - apply lookup_set_same.
  - now apply lookup_set_other.
Qed.

Lemma fold_assign_none (cols : list (string * list (value num))) l init :
  (forall sc, In sc cols -> LStr (fst sc) <> l) ->
  fold_left (assign l) cols init = init.
Proof.
  revert init. induction cols as [|sc cols IH]; cbn; intros init H; [reflexivity|].
  rewrite IH by (intros; apply H; now right).
  unfold assign. now rewrite label_eqb_neq by (apply H; now left).
Qed.

Lemma fold_assign_some (cols : list (string * list (value num))) l init col :
  (forall sc, In sc cols -> LStr (fst sc) = l -> snd sc = col) ->
  (exists sc, In sc cols /\ LStr (fst sc) = l) ->
  fold_left (assign l) cols init = Some col.
Proof.
  revert init. induction cols as [|sc cols IH]; cbn; intros init Hsame (x & Hin & Hx).
  - destruct Hin.
  - destruct (existsb (fun sc => label_eqb (LStr (fst sc)) l) cols) eqn:E.
    + apply existsb_exists in E as (y & Hy & Ey).
      apply IH; [intros; apply Hsame; auto|].
      exists y. split; [assumption|]. now destruct (label_eqb_spec (LStr (fst y)) l).
    + rewrite fold_assign_none.
      * destruct Hin as [->|Hin].
        -- unfold assign. rewrite Hx, label_eqb_refl. f_equal. apply Hsame; auto.
        -- exfalso. assert (existsb (fun sc => label_eqb (LStr (fst sc)) l) cols = true).
           { apply existsb_exists. exists x. split; [assumption|].
             rewrite Hx. apply label_eqb_refl. }
           congruence.
      * intros y Hy Ey.
        assert (existsb (fun sc => label_eqb (LStr (fst sc)) l) cols = true).
        { apply existsb_exists. exists y. split; [assumption|].
          rewrite Ey. apply label_eqb_refl. }
        congruence.
Qed.

Lemma copied_cols_spec gdf names cols :
  mapM (fun s => col <- get_col gdf (LStr s) ;; Ok (s, col)) names = Ok cols ->
  map fst cols = names /\
  forall sc, In sc cols -> get_col gdf (LStr (fst sc)) = Ok (snd sc).
Proof.
  revert cols. induction names as [|s names IH]; cbn; intros cols H.
  - inversion H; subst. split; [reflexivity|]. intros sc [].
  - bind_inv H y Hy. bind_inv H ys Hys. inversion H; subst.
    bind_inv Hy col Hcol. inversion Hy; subst.
    destruct (IH ys Hys) as [Hn Hc]. split; [cbn; now rewrite Hn|].
    intros sc [<-|Hin]; [assumption|now apply Hc].
Qed.

(** What [df[names] = gdf[names]] leaves in [df']: the columns of [gdf]
    under the names copied, the columns of [df] under the other labels. *)
Lemma copy_cols_spec df gdf names df' :
  wf_df gdf -> wf_df df ->
  List.length (df_index df) = List.length (df_index gdf) ->
  copy_cols df gdf names = Ok df' ->
  df_index df' = df_index df /\ wf_df df' /\
  (forall s, In s names ->
             lookup_col (df_columns df') (LStr s) = lookup_col (df_columns gdf) (LStr s)) /\
  (forall l, (forall s, In s names -> LStr s <> l) ->
             lookup_col (df_columns df') l = lookup_col (df_columns df) l) /\
  (forall l, In l (map fst (df_columns df')) ->
             In l (map fst (df_columns df)) \/ exists s, In s names /\ l = LStr s).
Proof.
  intros Hg Hd Hlen H.
  destruct (copy_cols_fits df gdf names df' Hg Hlen H) as (cols & Hcols & ->).
  destruct (copied_cols_spec gdf names cols Hcols) as [Hnames Hget].
  cbn [df_index df_columns]. split; [reflexivity|].
  assert (Hfit : forall sc, In sc cols ->
                            List.length (snd sc) = List.length (df_index df)).
  { intros sc Hin. rewrite Hlen. apply (get_col_length gdf (LStr (fst sc))); auto. }
  split.
  { clear Hcols Hnames Hget H. destruct df as [idx cs]. cbn in *.
    revert cs Hd. induction cols as [|sc cols IH]; cbn; intros cs Hd; [assumption|].
    apply IH; [intros; apply Hfit; now right|].
    apply (wf_set_col (mkDF idx cs)); [assumption|]. apply Hfit. now left. }
  split.
  { intros s Hs. rewrite lookup_fold_set.
    destruct (lookup_col (df_columns gdf) (LStr s)) as [col|] eqn:E.
    - apply fold_assign_some.
      + intros sc Hin Heq. specialize (Hget sc Hin). rewrite Heq in Hget.
        apply get_col_lookup in Hget. congruence.
      + rewrite <- Hnames in Hs. apply in_map_iff in Hs as (sc & <- & Hin).
        now exists sc.
    - exfalso. rewrite <- Hnames in Hs. apply in_map_iff in Hs as (sc & <- & Hin).
      specialize (Hget sc Hin). apply get_col_lookup in Hget. congruence. }
  split.
  { intros l Hl. rewrite lookup_fold_set. apply fold_assign_none.
    intros sc Hin. apply Hl. rewrite <- Hnames. now apply in_map. }
  { clear Hcols Hget H Hfit. rewrite <- Hnames. clear Hnames.
    generalize (df_columns df). induction cols as [|sc cols IH]; cbn; intros cs l Hl.
    - now left.
    - destruct (IH _ _ Hl) as [Hin|(s & Hs & ->)].
      + rewrite set_col_labels in Hin.
        destruct (existsb _ _); [now left|].
        apply in_app_iff in Hin as [Hin|[<-|[]]]; [now left|].
        right. exists (fst sc). split; [now left|reflexivity].
      + right. exists s. split; [now right|reflexivity]. }
Qed.


Definition plain_names (k : keep) : Prop :=
  forall s, In s (keep_names k) -> ~ reserved s.

Lemma setitem_list_empty (c : label) (cells : list (value num)) :
  setitem_list empty_df c cells = Ok (mkDF (range_index (List.length cells)) [(c, cells)]).
Proof.
  destruct cells as [|x cells]; [reflexivity|].
  unfold setitem_list, ensure_valid_index. cbn [df_index empty_df List.length].
  cbn [df_index df_columns map]. unfold range_index at 1.
  rewrite length_map, length_seq, Nat.eqb_refl. reflexivity.
Qed.

Lemma length_range_index (n : nat) : List.length (@range_index num n) = n.
Proof. unfold range_index. now rewrite length_map, length_seq. Qed.

Lemma wf_singleton (idx : list (value num)) c col :
  List.length col = List.length idx -> wf_df (mkDF idx [(c, col)]).
Proof. intros H l x [[= <- <-]|[]]. exact H. Qed.


Lemma set_index_inv df idx df2 :
  set_index df idx = Ok df2 ->
  List.length idx = List.length (df_index df) /\ df2 = mkDF idx (df_columns df).
Proof.
  unfold set_index.
  destruct (Nat.eqb_spec (List.length idx) (List.length (df_index df))); [|discriminate].
  intros [= <-]. now split.
Qed.

Lemma setitem_keep_names df gdf k :
  k <> KNone -> setitem_keep df gdf k = copy_cols df gdf (keep_names k).
Proof. destruct k; [congruence|reflexivity|reflexivity]. Qed.

Lemma combine_repeat {A B : Type} (l : list A) (b : B) :
  combine l (repeat b (List.length l)) = map (fun a => (a, b)) l.
Proof. induction l as [|a l IH]; cbn; [reflexivity|now rewrite IH]. Qed.


Section OneChunk.
Variables (mv key : string) (keep_cols : keep).
Hypothesis keeps_id : In mv (keep_names keep_cols).
Hypothesis plain : plain_names keep_cols.

Lemma mv_plain : ~ reserved mv.
Proof. now apply plain. Qed.





(** *** The long table of several durations *)

Lemma melt_nested df c ls vv var val :
  melt df [IdLabel c; IdList ls] vv var val = Raise TypeError.
Proof. reflexivity. Qed.

Lemma melt_two df a b vv var val r :
  melt df [IdLabel a; IdLabel b] vv var val = Ok r ->
  exists ca cb vcols,
    get_col df a = Ok ca /\ get_col df b = Ok cb /\
    mapM (get_col df) vv = Ok vcols /\
    r = mkDF (range_index (List.length (df_index df) * List.length vv))
             (set_col
                (set_col
                   (set_col (set_col [] a (concat (repeat ca (List.length vv))))
                            b (concat (repeat cb (List.length vv))))
                   var (concat (map (fun l => repeat (label_value l)
                                                     (List.length (df_index df))) vv)))
                val (concat vcols)).
Proof.
  unfold melt. cbn [mapM bind]. intros H.
  bind_inv H idc Hidc. bind_inv H vcols Hv. inversion H; subst; clear H.
  bind_inv Hidc x Hx. bind_inv Hx ca Hca. inversion Hx; subst; clear Hx.
  bind_inv Hidc ys Hys. inversion Hidc; subst; clear Hidc.
  bind_inv Hys y Hy. bind_inv Hy cb Hcb. inversion Hy; subst; clear Hy.
  inversion Hys; subst; clear Hys.
  exists ca, cb, vcols. repeat split; assumption.
Qed.

Lemma length_tile {A : Type} (c : list A) (k : nat) :
  List.length (concat (repeat c k)) = (List.length c * k)%nat.
Proof. induction k as [|k IH]; cbn; [lia|]. rewrite length_app, IH. lia. Qed.

Lemma length_var_col (vv : list label) (n : nat) :
  List.length (concat (map (fun l => repeat (@label_value num l) n) vv))
  = (n * List.length vv)%nat.
Proof.
  induction vv as [|l vv IH]; cbn; [lia|].
  rewrite length_app, repeat_length, IH. lia.
Qed.

Lemma length_value_cols df vv vcols :
  wf_df df -> mapM (get_col df) vv = Ok vcols ->
  List.length (concat vcols) = (List.length (df_index df) * List.length vv)%nat.
Proof.
  intros Hwf. revert vcols. induction vv as [|l vv IH]; cbn; intros vcols H.
  - inversion H; subst. cbn. lia.
  - bind_inv H c Hc. bind_inv H cs Hcs. inversion H; subst; clear H. cbn.
    rewrite length_app, (IH cs Hcs), (get_col_length _ _ _ Hwf Hc). lia.
Qed.

Lemma combine_app_same {A B : Type} (l1 l2 : list A) (m1 m2 : list B) :
  List.length l1 = List.length m1 ->
  combine (l1 ++ l2) (m1 ++ m2) = combine l1 m1 ++ combine l2 m2.
Proof.
  revert m1. induction l1 as [|a l1 IH]; intros [|b m1]; cbn; try discriminate.
  - reflexivity.
  - intros [= H]. now rewrite IH.
Qed.

Lemma combine_tiled ids (dd : list Z) :
  combine (concat (repeat ids (List.length dd)))
          (concat (map (fun l => repeat (@label_value num l) (List.length ids))
                       (map LInt dd)))
  = flat_map (fun d => map (fun z => (z, VInt d)) ids) dd.
Proof.
  induction dd as [|d dd IH]; cbn; [reflexivity|].
  rewrite combine_app_same by now rewrite repeat_length.
  now rewrite IH, combine_repeat.
Qed.

Lemma lookup_some_existsb (cols : list (label * list (value num))) c col :
  lookup_col cols c = Some col -> existsb (label_eqb c) (map fst cols) = true.
Proof.
  induction cols as [|[l x] cols IH]; cbn; [discriminate|].
  destruct (label_eqb_spec l c) as [->|Hne].
  - intros _. now rewrite label_eqb_refl.
  - intros H. rewrite (IH H). apply orb_true_r.
Qed.

Lemma existsb_int_label (labels : list label) (L : list Z) (d : Z) :
  filter is_int_label labels = map LInt L ->
  existsb (label_eqb (LInt d)) labels = existsb (Z.eqb d) L.
Proof.
  revert L. induction labels as [|[s|z] labels IH]; cbn; intros L H.
  - destruct L; [reflexivity|discriminate].
  - now apply IH.
  - destruct L as [|z' L]; [discriminate|]. inversion H; subst. cbn.
    now rewrite (IH L).
Qed.

(** What holds of the table between two turns of the loop at line 92. *)
Definition loop_inv df (L : list Z) : Prop :=
  wf_df df /\
  (exists c, lookup_col (df_columns df) "coords" = Some c) /\
  filter is_int_label (map fst (df_columns df)) = map LInt L.

Lemma add_duration_inv chunk ids df L d df' :
  wf_df chunk -> get_col chunk mv = Ok ids ->
  loop_inv df L ->
  add_duration get_isochrone chunk key (KStr mv) true df d = Ok df' ->
  loop_inv df' (add_new L d) /\
  df_index df' = df_index chunk /\
  lookup_col (df_columns df') mv = Some ids.
Proof.
  intros Hwf Hids (Hwfd & (c & Hc) & Hlab) H. unfold add_duration in H.
  bind_inv H cc Hcc. bind_inv H iso Hiso. bind_inv H dfa Ha. bind_inv H dfb Hb.
  apply iterate_isochrones_length in Hiso.
  pose proof (get_col_length _ _ _ Hwfd Hcc) as Hcclen.
  rewrite setitem_list_fits in Ha by (rewrite length_map; lia).
  inversion Ha; subst dfa; clear Ha.
  apply set_index_inv in Hb as (Hlen & ->). cbn [df_index df_columns] in *.
  cbn [setitem_keep] in H.
  apply copy_cols_fits in H as (cols & Hcols & ->); [|assumption|reflexivity].
  cbn [mapM bind] in Hcols. rewrite Hids in Hcols. cbn in Hcols.
  inversion Hcols; subst cols; clear Hcols. cbn [fold_left fst snd df_index df_columns].
  assert (Hne : LStr mv <> LStr "coords").
  { intros [= E]. apply mv_plain. rewrite E. unfold reserved. auto. }
  split; [|split; [reflexivity|apply lookup_set_same]].
  split; [|split].
  - apply (wf_set_col (mkDF (df_index chunk) _)).
    + intros l x Hin. cbn in *.
      apply in_set_col in Hin as [[_ ->]|Hin].
      * rewrite length_map. lia.
      * rewrite Hlen. now apply (Hwfd l).
    + cbn. now apply (get_col_length chunk mv).
  - exists c. cbn [df_columns]. rewrite lookup_set_other by assumption.
    rewrite lookup_set_other by discriminate. assumption.
  - cbn [df_columns]. rewrite !set_col_labels.
    rewrite (existsb_int_label _ L d Hlab). unfold add_new.
    destruct (existsb (Z.eqb d) L).
    + destruct (existsb _ _); [assumption|].
      rewrite filter_app. cbn. now rewrite app_nil_r.
    + destruct (existsb _ _).
      * rewrite filter_app, Hlab, map_app. reflexivity.
      * rewrite !filter_app, Hlab, map_app. cbn. now rewrite app_nil_r.
Qed.

Lemma loop_spec chunk ids ds df L df' :
  wf_df chunk -> get_col chunk mv = Ok ids ->
  loop_inv df L ->
  foldM (add_duration get_isochrone chunk key (KStr mv) true) ds df = Ok df' ->
  loop_inv df' (fold_left add_new ds L) /\
  (ds <> [] -> df_index df' = df_index chunk /\
               lookup_col (df_columns df') mv = Some ids).
Proof.
  intros Hwf Hids. revert df L. induction ds as [|d ds IH]; cbn; intros df L Hinv H.
  - inversion H; subst. split; [assumption|congruence].
  - bind_inv H df1 H1.
    destruct (add_duration_inv chunk ids df L d df1 Hwf Hids Hinv H1) as (Hinv1 & Hidx1 & Hmv1).
    destruct (IH df1 (add_new L d) Hinv1 H) as (Hinv' & Hlast).
    split; [assumption|]. intros _.
    destruct ds as [|d' ds]; [cbn in H; inversion H; subst; now split|].
    apply Hlast. discriminate.
Qed.

Lemma long_rows chunk dur ids df :
  wf_df chunk -> get_col chunk mv = Ok ids ->
  single_duration dur = false ->
  shp_to_isochrones get_isochrone chunk key dur keep_cols true = Ok df ->
  wf_df df /\ named df /\ requested dur <> [] /\
  exists idc durc,
    lookup_col (df_columns df) mv = Some idc /\
    lookup_col (df_columns df) "duration" = Some durc /\
    combine idc durc = chunk_rows ids (requested dur).
Proof.
  intros Hwf Hids Hsingle H. unfold shp_to_isochrones in H.
  bind_inv H cs Hcs. rewrite setitem_list_empty in H. cbn [bind] in H.
  rewrite Hsingle in H.
  bind_inv H dfL HL. bind_inv H dfS HS.
  assert (Hds : requested dur = match dur with DInt d => [d] | DList ds => ds end)
    by reflexivity.
  rewrite <- Hds in HL. clear Hds.
  assert (Hne : LStr "coords" <> LStr mv).
  { intros [= E]. apply mv_plain. rewrite <- E. unfold reserved. auto. }
  assert (Hne2 : LStr "duration" <> LStr mv).
  { intros [= E]. apply mv_plain. rewrite <- E. unfold reserved. auto. }
  assert (Hne3 : LStr "geometry" <> LStr mv).
  { intros [= E]. apply mv_plain. rewrite <- E. unfold reserved. auto. }
  pose proof keeps_id as Hk. revert H HL Hk. generalize keep_cols as k.
  intros [|mv'|l] H HL Hk; [destruct Hk| |now rewrite melt_nested in H].
  destruct Hk as [->|[]].
  pose proof HL as HL0.
  apply (loop_spec chunk ids _ _ []) in HL as ((HwfL & (c & Hc) & Hlab) & Hlast);
    [|assumption|assumption|].
  2:{ split; [|split; [now eexists|reflexivity]].
      apply wf_singleton. now rewrite length_range_index. }
  fold (distinct (requested dur)) in Hlab.
  cbn [bind] in HS. bind_inv HS cc Hcc. bind_inv HS cc' Hrev.
  pose proof (get_col_length _ _ _ HwfL Hcc) as Hcclen.
  apply mapM_length in Hrev.
  rewrite setitem_list_fits in HS by lia. inversion HS; subst dfS; clear HS.
  cbn [df_index df_columns] in H.
  apply get_col_lookup in Hcc.
  rewrite set_col_labels, (lookup_some_existsb _ _ _ Hcc), Hlab in H.
  apply melt_two in H as (ca & cb & vcols & Hca & Hcb & Hv & ->).
  cbn [df_index df_columns] in *.
  assert (HwfS : wf_df (mkDF (df_index dfL) (set_col (df_columns dfL) "coords" cc')))
    by (apply wf_set_col; [assumption|lia]).
  pose proof (get_col_length _ _ _ HwfS Hca) as Hcalen.
  pose proof (get_col_length _ _ _ HwfS Hcb) as Hcblen.
  cbn [df_index] in Hcalen, Hcblen.
  apply get_col_lookup in Hcb. cbn [df_columns] in Hcb.
  rewrite lookup_set_other in Hcb by assumption.
  rewrite length_map in *.
  set (dd := distinct (requested dur)) in *.
  set (n := List.length (df_index dfL)) in *.
  split.
  { intros l x Hin. cbn [df_index df_columns] in *. rewrite length_range_index.
    apply in_set_col in Hin as [[_ ->]|Hin].
    { rewrite (length_value_cols _ _ _ HwfS Hv). cbn [df_index]. now rewrite length_map. }
    apply in_set_col in Hin as [[_ ->]|Hin].
    { rewrite length_var_col. now rewrite length_map. }
    apply in_set_col in Hin as [[_ ->]|Hin]; [rewrite length_tile; lia|].
    apply in_set_col in Hin as [[_ ->]|[]]. rewrite length_tile; lia. }
  split.
  { intros l Hl. apply in_map_iff in Hl as ([l' x] & <- & Hin). cbn [fst df_columns] in *.
    apply in_set_col in Hin as [[-> _]|Hin]; [reflexivity|].
    apply in_set_col in Hin as [[-> _]|Hin]; [reflexivity|].
    apply in_set_col in Hin as [[-> _]|Hin]; [reflexivity|].
    apply in_set_col in Hin as [[-> _]|[]]. reflexivity. }
  assert (Hsome : requested dur <> []).
  { intros E. rewrite E in HL0. cbn in HL0. inversion HL0; subst dfL.
    cbn [df_columns lookup_col] in Hcb.
    rewrite (label_eqb_neq _ _ Hne) in Hcb. discriminate. }
  split; [assumption|].
  exists (concat (repeat cb (List.length dd))),
         (concat (map (fun l => repeat (label_value l) n) (map LInt dd))).
  cbn [df_columns].
  split.
  { rewrite !lookup_set_other by assumption. apply lookup_set_same. }
  split.
  { rewrite lookup_set_other by discriminate. apply lookup_set_same. }
  unfold chunk_rows. fold dd.
  destruct (Hlast Hsome) as (Hidx & Hmv).
  assert (cb = ids) as -> by congruence.
  assert (n = List.length ids) as ->.
  { unfold n. rewrite Hidx. symmetry. now apply (get_col_length chunk mv). }
  apply combine_tiled.
Qed.


End OneChunk.
End Builder.

(** ** The ledger file *)


Section Ledger.
Context {num : Type} {NUM : PyNum num} {GEO : Shapely num}.
Implicit Types (f : csv) (df : DataFrame num) (mv : string).

(** Every column of the file has as many fields as the first. *)
Definition wf_csv f : Prop :=
  forall h cells, In (h, cells) f -> List.length cells = csv_rows f.

(** The rows of the file as (identifier, duration) pairs, as [read_csv]
    returns them. *)
Definition ledger_rows f mv : list (value num * value num) :=
  combine (column_or_nan (read_csv_text f) mv)
          (column_or_nan (read_csv_text f) "duration").







Lemma length_column_or_nan df c :
  wf_df df -> List.length (column_or_nan df c) = List.length (df_index df).
Proof.
  intros Hwf. unfold column_or_nan.
  destruct (lookup_col (df_columns df) c) as [col|] eqn:E.
  - apply (Hwf c). now apply lookup_col_in.
  - apply repeat_length.
Qed.








Lemma column_or_nan_some df c col :
  lookup_col (df_columns df) c = Some col -> column_or_nan df c = col.
Proof. unfold column_or_nan. now intros ->. Qed.








End Ledger.

(** ** The loop over the chunks *)

Section Selecting.
Context {A : Type}.




End Selecting.

Section Frames.
Context {num : Type}.
Implicit Types (df : DataFrame num).



Lemma slice_rows_wf df a b : wf_df df -> wf_df (slice_rows df a b).
Proof.
  intros Hwf l col Hin. cbn in *.
  apply in_map_iff in Hin as ([l' x] & [= <- <-] & Hin).
  rewrite !length_firstn, !length_skipn. now rewrite (Hwf l' x Hin).
Qed.

Lemma slice_rows_col df a b c :
  lookup_col (df_columns (slice_rows df a b)) c =
  option_map (fun col => slice col a b) (lookup_col (df_columns df) c).
Proof. unfold slice_rows. cbn [df_columns]. apply (lookup_col_map (fun col => slice col a b)). Qed.

End Frames.

Section Run.
Context {num : Type} {NUM : PyNum num} {GEO : Shapely num}.
Variable get_isochrone :
  value num -> string -> duration -> Z -> result (list (num * num)).
Variables (key out mv : string) (dur : duration) (keep_cols : keep).

#[local] Abbreviation shp :=
  (fun c => shp_to_isochrones get_isochrone c key dur keep_cols true).
#[local] Abbreviation step :=
  (process_chunk get_isochrone key out dur keep_cols).




End Run.

(** ** The chunks a run plans *)

Section Plan.
Context {num : Type} {NUM : PyNum num} {GEO : Shapely num}.
Variables (out mv : string).
Implicit Types (w : world num) (f : csv) (zs : list Z) (gdf : DataFrame num).






Lemma astype_int_ints zs : @astype_int num (map VInt zs) = Ok (map VInt zs).
Proof. unfold astype_int. rewrite (mapM_total _ (fun v => v)); [now rewrite map_id|].
  intros v Hv. apply in_map_iff in Hv as (z & <- & _). reflexivity.
Qed.

Lemma setitem_list_same gdf c col :
  wf_df gdf -> get_col gdf c = Ok col -> setitem_list gdf c col = Ok gdf.
Proof.
  intros Hwf Hc. rewrite setitem_list_fits by now apply (get_col_length gdf c).
  apply get_col_lookup in Hc. rewrite (set_col_same _ _ _ Hc). now destruct gdf.
Qed.







End Plan.

(** ** The rows a run appends *)


Section Rows.
Context {num : Type} {NUM : PyNum num} {GEO : Shapely num}.
Variable get_isochrone :
  value num -> string -> duration -> Z -> result (list (num * num)).
Variables (key out mv : string) (dur : duration) (keep_cols : keep).
Hypothesis keeps_id : In mv (keep_names keep_cols).
Hypothesis plain : plain_names keep_cols.
Implicit Types (w : world num) (f : csv) (zs : list Z) (gdf : DataFrame num).

#[local] Abbreviation shp :=
  (fun c => shp_to_isochrones get_isochrone c key dur keep_cols true).












End Rows.

(** ** Durations in order of first occurrence *)






(** ** Rows as a product of identifiers and durations *)


Section Product.
Context {num : Type}.





End Product.

Section Resumption.
Context {num : Type} {NUM : PyNum num} {GEO : Shapely num}.
Variables (key out mv : string) (dur : duration) (keep_cols : keep).
Hypothesis keeps_id : In mv (keep_names keep_cols).
Hypothesis plain : plain_names keep_cols.
Implicit Types (w : world num) (f : csv) (zs : list Z) (gdf : DataFrame num).

#[local] Abbreviation rows f := (@ledger_rows num f mv).











Section OneRun.
Variable get_isochrone :
  value num -> string -> duration -> Z -> result (list (num * num)).








(** *** Starting again after a failure *)










#[local] Abbreviation built c :=
  (shp_to_isochrones get_isochrone c key dur keep_cols true).



End OneRun.
End Resumption.

(** ** The caller's table *)

Section CallerTable.
Context {num : Type} {NUM : PyNum num} {GEO : Shapely num}.
Variable get_isochrone :
  value num -> string -> duration -> Z -> result (list (num * num)).
Variables (key out mv : string) (dur : duration) (keep_cols : keep).
Implicit Types (w : world num) (gdf : DataFrame num).







End CallerTable.
(** ** The runs of the example *)

(** The rows of the output file of a world, as (identifier, duration)
    pairs. *)
Definition recorded (out mv : string) (w : world float)
  : option (list (value float * value float)) :=
  option_map (fun f => @ledger_rows float f mv) (files w out).

(** The identifiers of the chunks a run started in [w] is going to
    process. *)
Definition planned (out mv : string) (n : Z) (w : world float)
  : result (list (list (value float))) :=
  fmap (map (fun c => column_or_nan c mv)) (fst (pending_chunks out mv n w)).


Lemma geoid_plain : plain_names (KList ["GEOID"]).
Proof.
  intros s [<-|[]] [H|[H|H]]; discriminate H.
Defined.

Lemma sample_gdf_wf (zs : list Z) : wf_df (sample_gdf (map VInt zs)).
Proof.
  intros l col [[= <- <-]|[[= <- <-]|[]]]; cbn [sample_gdf df_index];
    unfold range_index; now rewrite ?length_map, ?length_seq.
Defined.


Definition seven : list Z := [1; 2; 3; 4; 5; 6; 7].
Definition five : list Z := [11; 12; 13; 14; 15].









(** A run on five squares in chunks of two; the collaborator is out of
    quota at the third square. *)
Definition quota_world : world float :=
  mkWorld (sample_gdf (map VInt five)) no_files.




(** What the failed run above leaves: the rows of the first chunk, and
    the second and third chunk to do. *)
Example quota_run_state :
  let r := isochrone_batch quota_route "key" "isochrones.csv" "GEOID" (DInt 15)
                           (KList ["GEOID"]) 2 quota_world in
  recorded "isochrones.csv" "GEOID" (snd r)
  = Some [(VInt 11, VInt 15); (VInt 12, VInt 15)] /\
  planned "isochrones.csv" "GEOID" 2 (snd r) = Ok [[VInt 13; VInt 14]; [VInt 15]].
Proof. vm_compute. split; reflexivity. Qed.



(** * Further properties of the module *)

(** ** [batch]: batch sizes below one, and tables *)

Section BatchEdges.
Context {T : Type} {S : Sliceable T}.

(** [range(0, li, n)] for a step below one. *)
Lemma py_range_nonpositive (li : nat) (n : Z) :
  n <= 0 ->
  py_range 0 (Z.of_nat li) n = if n =? 0 then Raise ValueError else Ok [].
Proof.
  intros Hn. unfold py_range.
  destruct (Z.eqb_spec n 0) as [E|E]; [reflexivity|].
  destruct (Z.ltb_spec 0 n) as [H|_]; [lia|].
  assert (Hq : (0 - Z.of_nat li - n - 1) / - n <= 0).
  { assert (0 - Z.of_nat li - n - 1 < - n) by lia.
    destruct (Z_lt_le_dec (0 - Z.of_nat li - n - 1) 0) as [Hneg|Hpos].
    - apply Z.lt_le_incl, Z.div_lt_upper_bound; lia.
    - rewrite Z.div_small; lia. }
  replace (Z.to_nat ((0 - Z.of_nat li - n - 1) / - n)) with 0%nat by lia.
  reflexivity.
Qed.

(** X1: a batch size of zero makes [batch] raise [ValueError] (the step
    of [range]), a negative one makes it yield no chunk at all, whatever
    the sequence holds. *)
Theorem batch_size_below_one (x : T) (n : Z) :
  n <= 0 ->
  batch x n = if n =? 0 then Raise ValueError else Ok [].
Proof.
  intros Hn. unfold batch. rewrite py_range_nonpositive by assumption.
  destruct (n =? 0); reflexivity.
Qed.

(** X2: for a batch size [n >= 1] the number of chunks is the length
    divided by [n], rounded up; a sequence that is not longer than [n]
    comes back as the one chunk [x[0:len(x)]], and an empty one gives no
    chunk. *)
Theorem batch_chunk_count (x : T) (n : Z) :
  1 <= n ->
  exists chunks,
    batch x n = Ok chunks /\
    Z.of_nat (List.length chunks) = (Z.of_nat (len x) + n - 1) / n /\
    (1 <= Z.of_nat (len x) <= n -> chunks = [slice x 0 (len x)]) /\
    (len x = 0%nat -> chunks = []).
Proof.
  intros Hn.
  assert (exists m, n = Z.of_nat m /\ (1 <= m)%nat) as (m & -> & Hm)
    by (exists (Z.to_nat n); lia).
  exists (slices x m). split; [now apply batch_slices|].
  unfold slices.
  split; [|split].
  - rewrite length_map, length_seq, Nat2Z.inj_div. f_equal. lia.
  - intros Hlen.
    assert (E : ((len x + m - 1) / m = 1)%nat).
    { symmetry. apply Nat.div_unique with (r := (len x - 1)%nat); lia. }
    rewrite E. cbn [seq map Nat.mul Nat.add].
    f_equal. f_equal. lia.
  - intros E. rewrite E.
    rewrite Nat.div_small by lia. reflexivity.
Qed.

End BatchEdges.

Lemma batch_size_below_one_witness :
  batch [1; 2; 3] (-2) = if -2 =? 0 then Raise ValueError else Ok [].
Proof. apply (batch_size_below_one [1; 2; 3] (-2)). lia. Defined.

Lemma batch_chunk_count_witness :
  exists chunks,
    batch [1; 2; 3; 4; 5; 6; 7] 3 = Ok chunks /\
    Z.of_nat (List.length chunks) = (Z.of_nat (len [1; 2; 3; 4; 5; 6; 7]) + 3 - 1) / 3 /\
    (1 <= Z.of_nat (len [1; 2; 3; 4; 5; 6; 7]) <= 3 ->
     chunks = [slice [1; 2; 3; 4; 5; 6; 7] 0 (len [1; 2; 3; 4; 5; 6; 7])]) /\
    (len [1; 2; 3; 4; 5; 6; 7] = 0%nat -> chunks = []).
Proof. apply (batch_chunk_count [1; 2; 3; 4; 5; 6; 7] 3). lia. Defined.

(** The chunks of a table. *)
Section BatchTable.
Context {num : Type}.
Implicit Types (df : DataFrame num).

Lemma length_slice_list {A : Type} (l : list A) (a b : nat) :
  (a <= b <= List.length l)%nat -> List.length (slice l a b) = (b - a)%nat.
Proof.
  intros H. cbn [slice list_Sliceable]. rewrite length_firstn, length_skipn. lia.
Qed.

Lemma slices_column df (c : label) (col : list (value num)) (m : nat) :
  List.length col = List.length (df_index df) ->
  lookup_col (df_columns df) c = Some col ->
  map (fun ch => lookup_col (df_columns ch) c) (slices df m) = map Some (slices col m).
Proof.
  intros Hlen Hc. unfold slices. rewrite !map_map.
  cbn [len DataFrame_Sliceable list_Sliceable slice]. rewrite Hlen.
  apply map_ext. intros i.
  rewrite slice_rows_col, Hc. reflexivity.
Qed.

(** X3: for a batch size [n >= 1], [batch] cuts a table whose columns are
    as long as its index into tables with the same column labels, each of
    1 to [n] rows; the index and every column of the table are the
    concatenation, in order, of the indexes and of that column of the
    chunks: no row is lost, repeated or moved, and the cells of a row stay
    together. *)
Theorem batch_table_partitions df (n : Z) :
  1 <= n -> wf_df df ->
  exists chunks,
    batch df n = Ok chunks /\
    concat (map df_index chunks) = df_index df /\
    (forall c col, lookup_col (df_columns df) c = Some col ->
                   concat (map (fun ch => column_or_nan ch c) chunks) = col) /\
    Forall (fun ch => wf_df ch /\
                      map fst (df_columns ch) = map fst (df_columns df) /\
                      1 <= Z.of_nat (List.length (df_index ch)) <= n) chunks.
Proof.
  intros Hn Hwf.
  assert (exists m, n = Z.of_nat m /\ (1 <= m)%nat) as (m & -> & Hm)
    by (exists (Z.to_nat n); lia).
  exists (slices df m). split; [now apply batch_slices|].
  split; [|split].
  - transitivity (concat (slices (df_index df) m)); [|now apply concat_slices].
    unfold slices. rewrite map_map. reflexivity.
  - intros c col Hc.
    assert (Hlen : List.length col = List.length (df_index df))
      by (apply (Hwf c); now apply lookup_col_in).
    transitivity (concat (slices col m)); [|now apply concat_slices]. f_equal.
    pose proof (slices_column df c col m Hlen Hc) as E.
    unfold column_or_nan.
    revert E. generalize (slices col m). generalize (slices df m).
    induction l as [|ch l IH]; intros [|s l0] E; try discriminate; [reflexivity|].
    cbn [map] in *. injection E as E1 E2. rewrite E1. f_equal. now apply IH.
  - apply Forall_forall. intros ch Hch. unfold slices in Hch.
    apply in_map_iff in Hch as (i & <- & Hi). apply in_seq in Hi.
    cbn [len DataFrame_Sliceable slice] in *.
    destruct (chunk_count_spec (List.length (df_index df)) m Hm) as [_ Hstart].
    specialize (Hstart i ltac:(lia)).
    split; [now apply slice_rows_wf|]. split.
    + unfold slice_rows. cbn [df_columns]. rewrite map_map. reflexivity.
    + unfold slice_rows. cbn [df_index].
      rewrite length_slice_list; lia.
Qed.

End BatchTable.

Lemma batch_table_partitions_witness :
  exists chunks,
    batch (sample_gdf (map VInt seven)) 3 = Ok chunks /\
    concat (map df_index chunks) = df_index (sample_gdf (map VInt seven)) /\
    (forall c col, lookup_col (df_columns (sample_gdf (map VInt seven))) c = Some col ->
                   concat (map (fun ch => column_or_nan ch c) chunks) = col) /\
    Forall (fun ch => wf_df ch /\
                      map fst (df_columns ch)
                      = map fst (df_columns (sample_gdf (map VInt seven))) /\
                      1 <= Z.of_nat (List.length (df_index ch)) <= 3) chunks.
Proof.
  apply (batch_table_partitions (sample_gdf (map VInt seven)) 3).
  - lia.
  - apply sample_gdf_wf.
Defined.

(** ** Centroids, filter and polygons *)

Lemma mapM_Forall2 {A B : Type} (f : A -> result B) (l : list A) (r : list B) :
  mapM f l = Ok r -> Forall2 (fun y x => f x = Ok y) r l.
Proof.
  revert r. induction l as [|a l IH]; cbn; intros r H.
  - injection H as <-. constructor.
  - destruct (f a) as [y|] eqn:Ea; cbn in H; [|discriminate].
    destruct (mapM f l) as [ys|]; cbn in H; [|discriminate].
    injection H as <-. constructor; [assumption|now apply IH].
Qed.

Lemma filterM_filter {A : Type} (p : A -> result bool) (l r : list A) :
  filterM p l = Ok r ->
  r = filter (fun x => match p x with Ok b => b | Raise _ => false end) l.
Proof.
  revert r. induction l as [|a l IH]; cbn; intros r H.
  - now injection H as <-.
  - destruct (p a) as [b|]; cbn in H; [|discriminate].
    destruct (filterM p l) as [ys|]; cbn in H; [|discriminate].
    injection H as <-. rewrite <- (IH ys eq_refl). reflexivity.
Qed.

Section Pieces.
Context {num : Type} {NUM : PyNum num} {GEO : Shapely num}.
Variable get_isochrone :
  value num -> string -> duration -> Z -> result (list (num * num)).

(** X4: for a table whose geometry column holds geometries,
    [get_centroids] returns one two element list per row, in the order of
    the rows, the latitude first: [[centroid.y, centroid.x]]. *)
Theorem get_centroids_lat_lng (gdf : DataFrame num) (gs : list (polygon num)) :
  get_col gdf "geometry" = Ok (map VGeom gs) ->
  get_centroids gdf = Ok (map (fun g => [snd (centroid g); fst (centroid g)]) gs).
Proof.
  intros Hg. unfold get_centroids. rewrite Hg. cbn [bind].
  rewrite (mapM_total _ (fun v => match v with
                                  | VGeom g => fst (centroid g)
                                  | _ => of_int 0
                                  end))
    by (intros v Hv; apply in_map_iff in Hv as (g & <- & _); reflexivity).
  cbn [bind].
  rewrite (mapM_total _ (fun v => match v with
                                  | VGeom g => snd (centroid g)
                                  | _ => of_int 0
                                  end))
    by (intros v Hv; apply in_map_iff in Hv as (g & <- & _); reflexivity).
  cbn [bind]. f_equal. clear Hg.
  induction gs as [|g gs IH]; [reflexivity|].
  cbn [map combine fst snd]. now rewrite IH.
Qed.

Lemma fixed_isos_only_removes (k : num) (pts o : list (num * num)) :
  fixed_isos k pts = Ok o -> exists keep : num * num -> bool, o = filter keep pts.
Proof.
  unfold fixed_isos. intros Ho.
  bind_inv Ho mean Hmean. bind_inv Ho sd Hsd.
  apply filterM_filter in Ho. eexists. exact Ho.
Qed.

(** X5: whenever the filter returns, it returns one set per input set, in
    order, and each of them is the input set with some of its points
    removed: it adds no point, changes none and keeps their order, and
    equal points of a set are kept or removed together. *)
Theorem check_isochrones_only_removes (points out : list (list (num * num))) k :
  check_isochrones points k = Ok out ->
  Forall2 (fun o pts => exists keep : num * num -> bool, o = filter keep pts)
          out points.
Proof.
  intros H. unfold check_isochrones in H. apply mapM_Forall2 in H.
  eapply Forall2_impl; [|exact H].
  intros o pts Ho. now apply (fixed_isos_only_removes k).
Qed.

(** X6: whenever [iterate_isochrones] returns, it returns one polygon per
    origin, in order; the ring of each is made of points the collaborator
    answered for that origin with tolerance 2, some of them removed, in
    their order, as [(lng, lat)] when [swap_xy] holds and [(lat, lng)]
    otherwise; no ring has one or two points. *)
Theorem iterate_isochrones_polygons coords key d (swap_xy : bool) polys :
  iterate_isochrones get_isochrone coords key d swap_xy = Ok polys ->
  Forall2 (fun poly x =>
             exists pts (keep : num * num -> bool),
               get_isochrone x key d 2 = Ok pts /\
               exterior poly
               = map (fun p => if swap_xy then (snd p, fst p) else (fst p, snd p))
                     (filter keep pts) /\
               List.length (exterior poly) <> 1%nat /\
               List.length (exterior poly) <> 2%nat)
          polys coords.
Proof.
  intros H. unfold iterate_isochrones in H.
  bind_inv H answers Hans. bind_inv H sets Hsets.
  apply mapM_Forall2 in Hans.
  unfold check_isochrones in Hsets. apply mapM_Forall2 in Hsets.
  assert (Hkept : Forall2 (fun o pts => exists keep : num * num -> bool,
                                          o = filter keep pts) sets answers)
    by (eapply Forall2_impl; [|exact Hsets];
        intros o pts Ho; now apply (fixed_isos_only_removes std_devs_default)).
  clear Hsets. rename Hkept into Hsets.
  assert (Hp : Forall2 (fun poly s =>
                          Polygon (map (fun p => if swap_xy then (snd p, fst p)
                                                 else (fst p, snd p)) s) = Ok poly)
                       polys sets).
  { unfold iso_polys in H. destruct swap_xy; now apply mapM_Forall2 in H. }
  clear H. revert answers coords Hans Hsets.
  induction Hp as [|poly s polys sets Hpoly _ IH]; intros answers coords Hans Hsets.
  - inversion Hsets; subst. inversion Hans; subst. constructor.
  - inversion Hsets as [|? pts ? answers' (keep & Hk) Hsets']; subst.
    inversion Hans as [|? x ? coords' Hx Hans']; subst.
    constructor; [|now apply (IH answers' coords')].
    exists pts, keep. split; [assumption|].
    unfold Polygon in Hpoly.
    destruct (map _ (filter keep pts)) as [|a [|b [|c l]]] eqn:E;
      try discriminate; injection Hpoly as <-; cbn [exterior List.length];
      repeat split; try reflexivity; discriminate.
Qed.

(** X7: the collaborator is asked for every origin before any answer is
    looked at: when it raises at one origin and answered at the origins
    before it, [iterate_isochrones] raises that exception, also when an
    earlier answer is a set the filter or shapely would refuse. *)
Theorem routing_error_comes_first pre x post key d swap_xy e :
  (forall c, In c pre -> exists pts, get_isochrone c key d 2 = Ok pts) ->
  get_isochrone x key d 2 = Raise e ->
  iterate_isochrones get_isochrone (pre ++ x :: post) key d swap_xy = Raise e.
Proof.
  intros Hpre Hx. unfold iterate_isochrones.
  rewrite mapM_app.
  assert (exists answers, mapM (fun c => get_isochrone c key d 2) pre = Ok answers)
    as (answers & ->).
  { induction pre as [|c pre IH]; [now exists []|].
    destruct (Hpre c (or_introl eq_refl)) as (pts & Hc).
    destruct IH as (rest & Hrest); [intros; apply Hpre; now right|].
    exists (pts :: rest). cbn. now rewrite Hc, Hrest. }
  cbn [bind mapM]. rewrite Hx. reflexivity.
Qed.

End Pieces.

Lemma get_centroids_lat_lng_witness :
  get_centroids (sample_gdf [VInt 11; VInt 12])
  = Ok (map (fun g => [snd (centroid g); fst (centroid g)]) [square 0 0; square 4 0]).
Proof.
  apply (get_centroids_lat_lng (sample_gdf [VInt 11; VInt 12]) [square 0 0; square 4 0]).
  reflexivity.
Defined.

Example sample_centroids :
  get_centroids (sample_gdf [VInt 11; VInt 12])
  = Ok [[1%float; 1%float]; [1%float; 5%float]].
Proof. vm_compute. reflexivity. Qed.

Lemma check_isochrones_only_removes_witness :
  Forall2 (fun o pts => exists keep : float * float -> bool, o = filter keep pts)
          [firstn 9 ten_points] [ten_points].
Proof.
  apply (check_isochrones_only_removes [ten_points] [firstn 9 ten_points]
           std_devs_default).
  vm_compute. reflexivity.
Defined.

Definition two_origins : list (value float) :=
  [VList [1%float; 1%float]; VList [1%float; 5%float]].

Definition two_rings : list (polygon float) :=
  match iterate_isochrones ring_route two_origins "key" (DInt 15) true with
  | Ok polys => polys
  | Raise _ => []
  end.

Lemma iterate_isochrones_polygons_witness :
  Forall2 (fun poly x =>
             exists pts (keep : float * float -> bool),
               ring_route x "key" (DInt 15) 2 = Ok pts /\
               exterior poly
               = map (fun p => if true then (snd p, fst p) else (fst p, snd p))
                     (filter keep pts) /\
               List.length (exterior poly) <> 1%nat /\
               List.length (exterior poly) <> 2%nat)
          two_rings two_origins.
Proof.
  apply (iterate_isochrones_polygons ring_route two_origins "key" (DInt 15) true two_rings).
  vm_compute. reflexivity.
Defined.

Lemma routing_error_comes_first_witness :
  iterate_isochrones quota_route
    ([VList [1%float; 1%float]] ++ VList [1%float; 9%float] :: [VList [1%float; 13%float]])
    "key" (DInt 15) true
  = Raise (ExternalError "quota").
Proof.
  apply (routing_error_comes_first quota_route [VList [1%float; 1%float]]
           (VList [1%float; 9%float]) [VList [1%float; 13%float]] "key" (DInt 15) true
           (ExternalError "quota")).
  - intros c [<-|[]]. eexists. reflexivity.
  - reflexivity.
Defined.

(** ** The table of one call of [shp_to_isochrones] *)

Section Tables.
Context {num : Type} {NUM : PyNum num} {GEO : Shapely num}.
Variable get_isochrone :
  value num -> string -> duration -> Z -> result (list (num * num)).
Implicit Types (gdf df : DataFrame num).

(** X8: with one duration [d] and no column to keep, whenever the
    centroids and the polygons can be computed the result is the table of
    three columns [coords], [duration], [geometry], in that order, with
    one row per row of [gdf] under a fresh index 0, 1, ...: the centroid
    as [[lat, lng]] (not reversed, whatever [swap_xy] says), [d], and the
    polygon of that centroid. *)
Theorem wide_table_default gdf key (d : Z) (swap_xy : bool) cs polys :
  get_centroids gdf = Ok cs ->
  iterate_isochrones get_isochrone (map VList cs) key (DInt d) swap_xy = Ok polys ->
  shp_to_isochrones get_isochrone gdf key (DInt d) KNone swap_xy
  = Ok (mkDF (range_index (List.length cs))
             [(LStr "coords", map VList cs);
              (LStr "duration", repeat (VInt d) (List.length cs));
              (LStr "geometry", map VGeom polys)]).
Proof.
  intros Hcs Hiso. unfold shp_to_isochrones.
  rewrite Hcs. cbn [bind]. rewrite setitem_list_empty. cbn [bind single_duration].
  unfold setitem_scalar. cbn [df_index df_columns].
  change (get_col _ "coords") with (@Ok (list (value num)) (map VList cs)).
  cbn [bind]. rewrite Hiso. cbn [bind].
  apply iterate_isochrones_length in Hiso.
  rewrite setitem_list_fits
    by (cbn [df_index]; rewrite !length_map in *; now rewrite length_range_index).
  rewrite !length_map, length_range_index. reflexivity.
Qed.

(** X9: with one duration [d] and columns to keep, none of them named
    coords, duration or geometry, a table that is returned has the index
    of [gdf] and, row for row, the centroid as [[lat, lng]], [d], the
    polygon of that centroid, and the cells of [gdf] in every kept
    column. *)
Theorem wide_table_kept gdf key (d : Z) keep_cols (swap_xy : bool) df :
  wf_df gdf -> keep_cols <> KNone -> plain_names keep_cols ->
  shp_to_isochrones get_isochrone gdf key (DInt d) keep_cols swap_xy = Ok df ->
  exists cs polys,
    get_centroids gdf = Ok cs /\
    iterate_isochrones get_isochrone (map VList cs) key (DInt d) swap_xy = Ok polys /\
    df_index df = df_index gdf /\
    lookup_col (df_columns df) "coords" = Some (map VList cs) /\
    lookup_col (df_columns df) "duration"
    = Some (repeat (VInt d) (List.length (df_index gdf))) /\
    lookup_col (df_columns df) "geometry" = Some (map VGeom polys) /\
    forall s, In s (keep_names keep_cols) ->
              lookup_col (df_columns df) (LStr s) = lookup_col (df_columns gdf) (LStr s).
Proof.
  intros Hwf Hkeep Hplain H. unfold shp_to_isochrones in H.
  bind_inv H cs Hcs. rewrite setitem_list_empty in H. cbn [bind single_duration] in H.
  bind_inv H df2 H2.
  assert (H2' : (df1 <- set_index
                          (setitem_scalar (mkDF (range_index (List.length (map VList cs)))
                                                [(LStr "coords", map VList cs)])
                                          "duration" (VInt d))
                          (df_index gdf) ;;
                 setitem_keep df1 gdf keep_cols) = Ok df2)
    by (destruct keep_cols; [congruence|exact H2|exact H2]).
  clear H2. bind_inv H2' df1 H1.
  apply set_index_inv in H1 as [Hlen ->].
  unfold setitem_scalar in *. cbn [df_index df_columns set_col lookup_col label_eqb] in *.
  change (String.eqb "coords" "duration") with false in *. cbv iota in *.
  rewrite length_range_index, length_map in *.
  rewrite setitem_keep_names in H2' by assumption.
  apply copy_cols_spec in H2' as (Hidx & Hwf2 & Hkept & Hother & _);
    [|assumption| |reflexivity].
  2:{ intros l col [[= <- <-]|[[= <- <-]|[]]]; cbn [df_index];
        rewrite ?length_map, ?repeat_length; congruence. }
  cbn [df_index df_columns] in *.
  assert (Hres : forall r s, reserved r -> In s (keep_names keep_cols) -> LStr s <> LStr r).
  { intros r s Hr Hs [= ->]. now apply (Hplain r). }
  assert (Hc : lookup_col (df_columns df2) "coords" = Some (map VList cs)).
  { rewrite Hother by (intros s Hs; apply Hres; unfold reserved; auto). reflexivity. }
  assert (Hd : lookup_col (df_columns df2) "duration"
               = Some (repeat (VInt d) (List.length cs))).
  { rewrite Hother by (intros s Hs; apply Hres; unfold reserved; auto). reflexivity. }
  unfold get_col in H at 1. rewrite Hc in H. cbn [bind] in H.
  bind_inv H polys Hiso.
  pose proof (iterate_isochrones_length _ _ _ _ _ _ Hiso) as Hpl.
  rewrite setitem_list_fits in H
    by (rewrite length_map, Hidx, Hpl, length_map; congruence).
  injection H as <-. cbn [df_index df_columns].
  exists cs, polys.
  assert (Hg : forall l, l <> LStr "geometry" ->
                         lookup_col (set_col (df_columns df2) "geometry" (map VGeom polys)) l
                         = lookup_col (df_columns df2) l)
    by (intros l Hl; apply lookup_set_other; congruence).
  repeat split; try assumption.
  - rewrite Hg by discriminate. assumption.
  - rewrite Hg by discriminate. now rewrite Hlen.
  - apply lookup_set_same.
  - intros s Hs. rewrite Hg by (apply Hres; unfold reserved; auto). now apply Hkept.
Qed.

Lemma add_duration_none gdf key (swap_xy : bool) df (d : Z) :
  exists e, add_duration get_isochrone gdf key KNone swap_xy df d = Raise e.
Proof.
  unfold add_duration.
  destruct (get_col df "coords") as [c|e]; cbn [bind]; [|now exists e].
  destruct (iterate_isochrones _ _ _ _ _) as [iso|e]; cbn [bind]; [|now exists e].
  destruct (setitem_list _ _ _) as [df1|e]; cbn [bind]; [|now exists e].
  destruct (set_index _ _) as [df2|e]; cbn [bind]; [|now exists e].
  now exists KeyError.
Qed.

(** X10: several durations work with one column name only.  With the
    default [keep_cols=None] a list of two or more durations never gives a
    table (the first turn of the loop assigns [gdf[None]]); with a list of
    column names, as example.py passes, no list of durations that takes
    the long path does (the list is nested into melt's [id_vars]). *)
Theorem several_durations_need_one_name gdf key (ds : list Z) keep_cols (swap_xy : bool) :
  (keep_cols = KNone /\ (2 <= List.length ds)%nat) \/
  ((exists l, keep_cols = KList l) /\ List.length ds <> 1%nat) ->
  exists e,
    shp_to_isochrones get_isochrone gdf key (DList ds) keep_cols swap_xy = Raise e.
Proof.
  intros Hcase. unfold shp_to_isochrones.
  destruct (get_centroids gdf) as [cs|e]; cbn [bind]; [|now exists e].
  rewrite setitem_list_empty. cbn [bind].
  assert (Hlong : single_duration (DList ds) = false).
  { destruct Hcase as [[_ H]|[_ H]]; destruct ds as [|a [|b ds]]; cbn in *;
      try reflexivity; try lia; congruence. }
  rewrite Hlong.
  destruct Hcase as [[-> Hlen]|[(l & ->) _]].
  - destruct ds as [|a ds]; [cbn in Hlen; lia|]. cbn [foldM].
    destruct (add_duration_none gdf key swap_xy
                (mkDF (range_index (List.length (map VList cs)))
                      [(LStr "coords", map VList cs)]) a) as (e & ->).
    now exists e.
  - destruct (foldM _ ds _) as [dfL|e]; cbn [bind]; [|now exists e].
    destruct (if swap_xy then _ else _) as [dfS|e]; cbn [bind]; [|now exists e].
    exists TypeError. apply melt_nested.
Qed.

Lemma length_chunk_rows (ids : list (value num)) (ds : list Z) :
  List.length (chunk_rows ids ds)
  = (List.length ids * List.length (distinct ds))%nat.
Proof.
  unfold chunk_rows. induction (distinct ds) as [|d dd IH]; cbn [flat_map].
  - cbn. lia.
  - rewrite length_app, length_map, IH. cbn [List.length]. lia.
Qed.

(** X11: with several durations and one column name [s] (not coords,
    duration or geometry), a table that is returned is long: for every
    duration of the list, taken once and in the order of first occurrence,
    it has the rows of [gdf] in their order, each with its cell of column
    [s] and that duration; a duration listed twice gives its rows once. *)
Theorem long_table_rows gdf key (ds : list Z) (s : string) ids df :
  wf_df gdf -> get_col gdf s = Ok ids -> ~ reserved s ->
  List.length ds <> 1%nat ->
  shp_to_isochrones get_isochrone gdf key (DList ds) (KStr s) true = Ok df ->
  ds <> [] /\
  List.length (df_index df) = (List.length ids * List.length (distinct ds))%nat /\
  exists idc durc,
    lookup_col (df_columns df) (LStr s) = Some idc /\
    lookup_col (df_columns df) "duration" = Some durc /\
    combine idc durc
    = flat_map (fun d => map (fun z => (z, VInt d)) ids) (distinct ds).
Proof.
  intros Hwf Hids Hs Hlen H.
  assert (Hlong : single_duration (DList ds) = false)
    by (destruct ds as [|a [|b ds]]; cbn in *; congruence).
  assert (Hplain : plain_names (KStr s)) by (intros t [<-|[]]; exact Hs).
  destruct (long_rows get_isochrone s key (KStr s) (or_introl eq_refl) Hplain
              gdf (DList ds) ids df Hwf Hids Hlong H)
    as (Hwfdf & _ & Hne & idc & durc & Hidc & Hdurc & Hrows).
  cbn [requested] in *. split; [exact Hne|]. split.
  - pose proof (Hwfdf _ _ (lookup_col_in _ _ _ Hidc)) as L1.
    pose proof (Hwfdf _ _ (lookup_col_in _ _ _ Hdurc)) as L2.
    rewrite <- length_chunk_rows, <- Hrows, length_combine, L1, L2.
    symmetry. apply Nat.min_id.
  - exists idc, durc. auto.
Qed.

(** X12: a list of one duration takes the path of a single duration,
    but the list itself is assigned as the duration column: on a table of
    two or more rows the call raises [ValueError] (one value for an index
    of that length), whatever the other arguments are, and before the
    collaborator is asked. *)
Theorem one_element_list_needs_one_row gdf key (d : Z) keep_cols (swap_xy : bool) cs :
  get_centroids gdf = Ok cs -> (2 <= List.length cs)%nat ->
  shp_to_isochrones get_isochrone gdf key (DList [d]) keep_cols swap_xy
  = Raise ValueError.
Proof.
  intros Hcs Hlen. unfold shp_to_isochrones. rewrite Hcs. cbn [bind].
  rewrite setitem_list_empty. cbn [bind single_duration].
  unfold setitem_list at 1, ensure_valid_index.
  cbn [df_index df_columns map List.length].
  destruct cs as [|a [|b cs]]; cbn in Hlen; try lia.
  reflexivity.
Qed.

End Tables.

Definition two_squares : DataFrame float := sample_gdf [VInt 11; VInt 12].

Definition two_centroids : list (list float) :=
  [[1%float; 1%float]; [1%float; 5%float]].

Lemma two_squares_wf : wf_df two_squares.
Proof. apply (sample_gdf_wf [11; 12]). Defined.

Lemma geoid_free : ~ reserved "GEOID".
Proof. intros [H|[H|H]]; discriminate H. Defined.

Lemma wide_table_default_witness :
  shp_to_isochrones ring_route two_squares "key" (DInt 15) KNone true
  = Ok (mkDF (range_index (List.length two_centroids))
             [(LStr "coords", map VList two_centroids);
              (LStr "duration", repeat (VInt 15) (List.length two_centroids));
              (LStr "geometry", map VGeom two_rings)]).
Proof.
  apply (wide_table_default ring_route two_squares "key" 15 true two_centroids two_rings).
  - vm_compute. reflexivity.
  - vm_compute. reflexivity.
Defined.

Definition two_wide : DataFrame float :=
  match shp_to_isochrones ring_route two_squares "key" (DInt 15) (KList ["GEOID"]) true with
  | Ok df => df
  | Raise _ => empty_df
  end.

Lemma wide_table_kept_witness :
  exists cs polys,
    get_centroids two_squares = Ok cs /\
    iterate_isochrones ring_route (map VList cs) "key" (DInt 15) true = Ok polys /\
    df_index two_wide = df_index two_squares /\
    lookup_col (df_columns two_wide) "coords" = Some (map VList cs) /\
    lookup_col (df_columns two_wide) "duration"
    = Some (repeat (VInt 15) (List.length (df_index two_squares))) /\
    lookup_col (df_columns two_wide) "geometry" = Some (map VGeom polys) /\
    forall s, In s (keep_names (KList ["GEOID"])) ->
              lookup_col (df_columns two_wide) (LStr s)
              = lookup_col (df_columns two_squares) (LStr s).
Proof.
  apply (wide_table_kept ring_route two_squares "key" 15 (KList ["GEOID"]) true two_wide).
  - apply two_squares_wf.
  - discriminate.
  - apply geoid_plain.
  - vm_compute. reflexivity.
Defined.

Lemma several_durations_need_one_name_witness :
  exists e,
    shp_to_isochrones ring_route two_squares "key" (DList [15; 30]) (KList ["GEOID"]) true
    = Raise e.
Proof.
  apply (several_durations_need_one_name ring_route two_squares "key" [15; 30]
           (KList ["GEOID"]) true).
  right. split; [now exists ["GEOID"]|discriminate].
Defined.

Definition two_long : DataFrame float :=
  match shp_to_isochrones ring_route two_squares "key" (DList [15; 30; 15])
                          (KStr "GEOID") true with
  | Ok df => df
  | Raise _ => empty_df
  end.

Lemma long_table_rows_witness :
  [15; 30; 15] <> [] /\
  List.length (df_index two_long)
  = (List.length [@VInt float 11; VInt 12] * List.length (distinct [15; 30; 15]%Z))%nat /\
  exists idc durc,
    lookup_col (df_columns two_long) (LStr "GEOID") = Some idc /\
    lookup_col (df_columns two_long) "duration" = Some durc /\
    combine idc durc
    = flat_map (fun d => map (fun z => (z, VInt d)) [@VInt float 11; VInt 12])
               (distinct [15; 30; 15]).
Proof.
  apply (long_table_rows ring_route two_squares "key" [15; 30; 15] "GEOID"
           [VInt 11; VInt 12] two_long).
  - apply two_squares_wf.
  - reflexivity.
  - apply geoid_free.
  - discriminate.
  - vm_compute. reflexivity.
Defined.

Example two_long_pairs :
  combine (column_or_nan two_long "GEOID") (column_or_nan two_long "duration")
  = [(VInt 11, VInt 15); (VInt 12, VInt 15); (VInt 11, VInt 30); (VInt 12, VInt 30)].
Proof. vm_compute. reflexivity. Qed.

Lemma one_element_list_needs_one_row_witness :
  shp_to_isochrones ring_route two_squares "key" (DList [15]) (KList ["GEOID"]) true
  = Raise ValueError.
Proof.
  apply (one_element_list_needs_one_row ring_route two_squares "key" 15
           (KList ["GEOID"]) true two_centroids).
  - vm_compute. reflexivity.
  - cbn. lia.
Defined.

(** ** Runs of [isochrone_batch] outside the resumption case *)

(** A cell [set] and [in] accept. *)
Definition hashable {num : Type} (v : value num) : Prop :=
  match v with
  | VList _ | VGeom _ => False
  | _ => True
  end.

Section RunEdges.
Context {num : Type} {NUM : PyNum num} {GEO : Shapely num}.
Variable get_isochrone :
  value num -> string -> duration -> Z -> result (list (num * num)).
Variables (key out mv : string) (dur : duration) (keep_cols : keep).
Implicit Types (w : world num) (gdf : DataFrame num) (f : csv).

Lemma process_chunk_files (c : DataFrame num) w (p : string) :
  p <> out ->
  files (snd (process_chunk get_isochrone key out dur keep_cols c w)) p = files w p.
Proof.
  intros Hp. apply String.eqb_neq in Hp.
  unfold process_chunk, seq_stmt, lift, read_csv, to_csv.
  destruct (shp_to_isochrones _ _ _ _ _ _); [|reflexivity].
  destruct (files w out); [|reflexivity].
  cbn [snd files]. now rewrite Hp.
Qed.

Lemma for_each_files (chunks : list (DataFrame num)) w (p : string) :
  p <> out ->
  files (snd (for_each (process_chunk get_isochrone key out dur keep_cols) chunks w)) p
  = files w p.
Proof.
  intros Hp. revert w. induction chunks as [|c chunks IH]; intros w; [reflexivity|].
  cbn [for_each]. unfold seq_stmt.
  pose proof (process_chunk_files c w p Hp) as Hc.
  destruct (process_chunk _ _ _ _ _ c w) as [[[]|e] w1]; cbn [snd] in *.
  - now rewrite IH.
  - assumption.
Qed.

Lemma pending_chunks_files (n : Z) w (p : string) :
  p <> out -> files (snd (pending_chunks out mv n w)) p = files w p.
Proof.
  intros Hp. apply String.eqb_neq in Hp.
  unfold pending_chunks, open_ledger, seq_stmt, path_exists, read_csv, to_csv,
    get_table, put_table, lift, ret.
  cbv beta.
  destruct (files w out) as [f|] eqn:Hf; cbn [negb]; cbv beta iota;
    rewrite ?Hf; cbv beta iota; cbn [table files].
  - destruct (get_col (table w) mv) as [ids|]; cbn [bind]; [|reflexivity].
    destruct (astype_int ids) as [ids'|]; cbn [bind]; [|reflexivity].
    destruct (setitem_list (table w) mv ids') as [gdf'|]; [|reflexivity].
    cbn [table].
    destruct (unfinished_idx gdf' _ mv) as [u|]; [|reflexivity].
    destruct (gdf_unfinished gdf' mv u) as [t|]; reflexivity.
  - destruct (unfinished_idx (table w) _ mv) as [u|]; cbn [snd files].
    + destruct (gdf_unfinished (table w) mv u) as [t|]; cbn [snd files]; now rewrite Hp.
    + now rewrite Hp.
Qed.

(** X13: a run reads and writes one file only: whatever the arguments
    and the collaborator, and whether the run returns or raises, every
    path other than [out_filename] holds after the run what it held
    before. *)
Theorem other_files_untouched (n : Z) w (p : string) :
  p <> out ->
  files (snd (isochrone_batch get_isochrone key out mv dur keep_cols n w)) p
  = files w p.
Proof.
  intros Hp. rewrite <- (pending_chunks_files n w p Hp).
  unfold isochrone_batch, seq_stmt.
  destruct (pending_chunks out mv n w) as [[chunks|e] w0]; cbn [snd]; [|reflexivity].
  now apply for_each_files.
Qed.

Lemma unfinished_fresh gdf ids :
  get_col gdf mv = Ok ids -> Forall hashable ids ->
  unfinished_idx gdf (setitem_scalar empty_df mv (VStr EmptyString)) mv = Ok ids.
Proof.
  intros Hids Hh. unfold unfinished_idx. rewrite Hids. cbn [bind].
  rewrite (filterM_total _ (fun _ => true)).
  - f_equal. clear. induction ids as [|x ids IH]; cbn; congruence.
  - intros x Hx. rewrite Forall_forall in Hh. specialize (Hh x Hx).
    unfold get_col, setitem_scalar.
    cbn [df_columns df_index empty_df set_col lookup_col List.length repeat].
    rewrite label_eqb_refl. cbn [bind].
    destruct x; cbn in *; try reflexivity; contradiction.
Qed.

(** X14: on a first run (no output file) over hashable identifiers, a
    batch size of zero makes the run raise [ValueError] and a negative one
    makes it return at once; either way no chunk is processed, the table
    is untouched, and the output file has been created with the header
    line of the identifier column alone. *)
Theorem run_with_batch_size_below_one (n : Z) w ids :
  n <= 0 -> files w out = None ->
  get_col (table w) mv = Ok ids -> Forall hashable ids ->
  let r := isochrone_batch get_isochrone key out mv dur keep_cols n w in
  fst r = (if n =? 0 then Raise ValueError else Ok tt) /\
  table (snd r) = table w /\
  files (snd r) out = Some [(mv, [])].
Proof.
  intros Hn Hf Hids Hh r. subst r.
  unfold isochrone_batch, pending_chunks, open_ledger, seq_stmt, path_exists,
    to_csv, ret, get_table, lift.
  cbv beta. rewrite Hf. cbn [negb]. cbv beta iota. cbn [table].
  rewrite (unfinished_fresh _ ids Hids Hh).
  unfold gdf_unfinished. rewrite Hids. cbn [bind].
  unfold batch. rewrite py_range_nonpositive by assumption.
  destruct (n =? 0); cbn [bind map]; cbn [for_each ret fst snd table files];
    rewrite String.eqb_refl; repeat split.
Qed.

(** X15: a table without the identifier column makes the run raise
    [KeyError] before anything is routed; the table is untouched, an
    output file that existed is untouched, and one that did not exist has
    nonetheless been created, with the header line alone. *)
Theorem missing_identifier_column (n : Z) w :
  lookup_col (df_columns (table w)) (LStr mv) = None ->
  let r := isochrone_batch get_isochrone key out mv dur keep_cols n w in
  fst r = Raise KeyError /\
  table (snd r) = table w /\
  files (snd r) out
  = Some (match files w out with Some f => f | None => [(mv, [])] end).
Proof.
  intros Hnone r. subst r.
  assert (Hget : get_col (table w) mv = Raise KeyError)
    by (unfold get_col; now rewrite Hnone).
  unfold isochrone_batch, pending_chunks, open_ledger, seq_stmt, path_exists,
    read_csv, to_csv, ret, get_table, put_table, lift.
  cbv beta.
  destruct (files w out) as [f|] eqn:Hf; cbn [negb]; cbv beta iota;
    rewrite ?Hf; cbv beta iota; cbn [table].
  - rewrite Hget. cbn [bind fst snd]. auto.
  - unfold unfinished_idx. rewrite Hget. cbn [bind fst snd table files].
    rewrite String.eqb_refl. auto.
Qed.


End RunEdges.

Lemma other_files_untouched_witness :
  files (snd (isochrone_batch ring_route "key" "isochrones.csv" "GEOID" (DInt 15)
                (KList ["GEOID"]) 3
                (mkWorld two_squares (one_file "notes.csv" [("a", ["1"])]))))
        "notes.csv"
  = files (mkWorld two_squares (one_file "notes.csv" [("a", ["1"])])) "notes.csv".
Proof.
  apply (other_files_untouched ring_route "key" "isochrones.csv" "GEOID" (DInt 15)
           (KList ["GEOID"]) 3).
  discriminate.
Defined.

Lemma run_with_batch_size_below_one_witness :
  let r := isochrone_batch ring_route "key" "isochrones.csv" "GEOID" (DInt 15)
             (KList ["GEOID"]) (-3) (mkWorld two_squares no_files) in
  fst r = (if -3 =? 0 then Raise ValueError else Ok tt) /\
  table (snd r) = table (mkWorld two_squares no_files) /\
  files (snd r) "isochrones.csv" = Some [("GEOID", [])].
Proof.
  apply (run_with_batch_size_below_one ring_route "key" "isochrones.csv" "GEOID"
           (DInt 15) (KList ["GEOID"]) (-3) (mkWorld two_squares no_files)
           [VInt 11; VInt 12]).
  - lia.
  - reflexivity.
  - reflexivity.
  - repeat constructor.
Defined.

Lemma missing_identifier_column_witness :
  let r := isochrone_batch ring_route "key" "isochrones.csv" "FIPS" (DInt 15)
             (KList ["FIPS"]) 3 (mkWorld two_squares no_files) in
  fst r = Raise KeyError /\
  table (snd r) = table (mkWorld two_squares no_files) /\
  files (snd r) "isochrones.csv"
  = Some (match files (mkWorld two_squares no_files) "isochrones.csv" with
          | Some f => f
          | None => [("FIPS", [])]
          end).
Proof.
  apply (missing_identifier_column ring_route "key" "isochrones.csv" "FIPS" (DInt 15)
           (KList ["FIPS"]) 3 (mkWorld two_squares no_files)).
  reflexivity.
Defined.



(** ** The output file across runs *)

Lemma lookup_header_none {num : Type} (f : csv) (mv : string) :
  ~ In mv (map fst f) ->
  lookup_col (df_columns (@read_csv_text num f)) (LStr mv) = None.
Proof.
  unfold read_csv_text. cbn [df_columns].
  induction f as [|[h cells] f IH]; intros Hnot; [reflexivity|].
  cbn [map fst snd lookup_col label_eqb] in *.
  destruct (String.eqb_spec h mv) as [->|_]; [exfalso; apply Hnot; now left|].
  apply IH. intros Hin. apply Hnot. now right.
Qed.

Section LedgerFacts.
Context {num : Type} {NUM : PyNum num} {GEO : Shapely num}.
Variable get_isochrone :
  value num -> string -> duration -> Z -> result (list (num * num)).
Variables (key out mv : string) (dur : duration) (keep_cols : keep).
Implicit Types (w : world num) (f : csv) (zs : list Z).

(** X17: an output file that exists but has no column of the identifier
    makes the run of a table with integer identifiers, and at least one
    row, raise [KeyError] at the first identifier; nothing is routed and
    the table and the files stay as they were. *)
Theorem ledger_without_identifier_column (n : Z) w f zs :
  files w out = Some f -> ~ In mv (map fst f) ->
  wf_df (table w) -> get_col (table w) mv = Ok (map VInt zs) -> zs <> [] ->
  isochrone_batch get_isochrone key out mv dur keep_cols n w = (Raise KeyError, w).
Proof.
  intros Hf Hnot Hwf Hids Hne.
  unfold isochrone_batch, pending_chunks, open_ledger, seq_stmt, path_exists,
    read_csv, get_table, put_table, lift, ret.
  cbv beta. rewrite Hf. cbn [negb]. cbv beta iota. rewrite Hf. cbv beta iota.
  rewrite Hids. cbv beta iota. rewrite astype_int_ints. cbv beta iota.
  rewrite (setitem_list_same _ _ _ Hwf Hids). cbv beta iota. cbn [table files].
  unfold unfinished_idx. rewrite Hids. cbn [bind].
  destruct zs as [|z zs]; [congruence|]. cbn [map filterM].
  unfold get_col at 1. rewrite (lookup_header_none f mv Hnot). cbn [bind].
  destruct w; reflexivity.
Qed.

Hypothesis keeps_id : In mv (keep_names keep_cols).
Hypothesis plain : plain_names keep_cols.



End LedgerFacts.

Section OneDuration.
Context {num : Type} {NUM : PyNum num} {GEO : Shapely num}.
Variable get_isochrone :
  value num -> string -> duration -> Z -> result (list (num * num)).
Variables (key out mv : string) (keep_cols : keep).
Hypothesis keeps_id : In mv (keep_names keep_cols).
Hypothesis plain : plain_names keep_cols.



End OneDuration.

Lemma ledger_without_identifier_column_witness :
  isochrone_batch ring_route "key" "isochrones.csv" "GEOID" (DInt 15) (KList ["GEOID"]) 3
    (mkWorld two_squares (one_file "isochrones.csv" [("FIPS", ["11"])]))
  = (Raise KeyError, mkWorld two_squares (one_file "isochrones.csv" [("FIPS", ["11"])])).
Proof.
  apply (ledger_without_identifier_column ring_route "key" "isochrones.csv" "GEOID"
           (DInt 15) (KList ["GEOID"]) 3
           (mkWorld two_squares (one_file "isochrones.csv" [("FIPS", ["11"])]))
           [("FIPS", ["11"])] [11; 12]).
  - reflexivity.
  - intros [H|[]]. discriminate H.
  - apply two_squares_wf.
  - reflexivity.
  - discriminate.
Defined.




(** ** What [isochrones_to_shp] writes *)

Lemma by_position {A B C : Type} (P : A -> B -> Prop) (l pre : list B)
  (recs : list A) (idx : list C) :
  List.length idx = List.length l ->
  Forall2 (fun f iv => exists v, nth_error (pre ++ l) (fst iv) = Some v /\ P f v)
          recs (combine (seq (List.length pre) (List.length l)) idx) ->
  Forall2 P recs l.
Proof.
  revert pre recs idx. induction l as [|x l IH]; intros pre recs idx Hlen H.
  - cbn in H. inversion H. constructor.
  - destruct idx as [|a idx]; [discriminate|].
    cbn [List.length seq combine] in H.
    inversion H as [|f iv recs' rows' (v & Hv & HP) Hrest]; subst.
    cbn [fst] in Hv. rewrite nth_error_app2, Nat.sub_diag in Hv by lia.
    injection Hv as <-. constructor; [exact HP|].
    apply (IH (pre ++ [x]) recs' idx); [cbn in Hlen; lia|].
    rewrite length_app, <- app_assoc. cbn [List.length app].
    replace (List.length pre + 1)%nat with (S (List.length pre)) by lia.
    exact Hrest.
Qed.

Lemma Forall2_map_eq {A B C : Type} (h : A -> C) (k : B -> C)
  (recs : list A) (l : list B) :
  Forall2 (fun f v => k v = h f) recs l -> map h recs = map k l.
Proof. induction 1; cbn; congruence. Qed.

Lemma Forall2_mapM {A B C : Type} (g : B -> result C) (h : A -> C)
  (recs : list A) (l : list B) :
  Forall2 (fun f v => g v = Ok (h f)) recs l -> mapM g l = Ok (map h recs).
Proof.
  induction 1 as [|f v recs l Hv _ IH]; cbn; [reflexivity|].
  now rewrite Hv, IH.
Qed.

Lemma map_snd_combine {A B : Type} (l1 : list A) (l2 : list B) :
  List.length l1 = List.length l2 -> map snd (combine l1 l2) = l2.
Proof.
  revert l2. induction l1 as [|a l1 IH]; intros [|b l2]; cbn; try discriminate.
  - reflexivity.
  - intros [= H]. now rewrite IH.
Qed.

Section Exported.
Context {num : Type} {NUM : PyNum num} {GEO : Shapely num}.
Variable wkt_loads : string -> result (polygon num).
Variable int_of_text : string -> result Z.
Variable writable : string -> bool.
Implicit Types (df : DataFrame num) (w : shp_world num).

(** The loop writes the records of the rows in order and stops at the
    first row whose record cannot be built. *)
Lemma write_rows_spec df (rows : list (nat * value num)) (acc : list (feature num)) :
  exists k new,
    snd (write_rows int_of_text df rows acc) = acc ++ new /\
    Forall2 (fun f iv => row_feature int_of_text df (fst iv) (snd iv) = Ok f)
            new (firstn k rows) /\
    fst (write_rows int_of_text df rows acc)
    = match nth_error rows k with
      | Some iv => match row_feature int_of_text df (fst iv) (snd iv) with
                   | Raise e => Raise e
                   | Ok _ => Ok tt
                   end
      | None => Ok tt
      end /\
    (forall iv, nth_error rows k = Some iv ->
                exists e, row_feature int_of_text df (fst iv) (snd iv) = Raise e).
Proof.
  revert acc. induction rows as [|[i index] rows IH]; intros acc.
  - exists 0%nat, []. cbn. rewrite app_nil_r. repeat split; [constructor|discriminate].
  - cbn [write_rows]. destruct (row_feature int_of_text df i index) as [f|e] eqn:E.
    + destruct (IH (acc ++ [f])) as (k & new & Hsnd & HF & Hfst & Hex).
      exists (S k), (f :: new). cbn [nth_error firstn].
      rewrite Hsnd, <- app_assoc. split; [reflexivity|].
      split; [constructor; assumption|]. split; assumption.
    + exists 0%nat, []. cbn [nth_error firstn fst snd]. rewrite E, app_nil_r.
      split; [reflexivity|]. split; [constructor|]. split; [reflexivity|].
      intros iv [= <-]. now exists e.
Qed.

Lemma write_rows_all df (rows : list (nat * value num)) recs :
  write_rows int_of_text df rows [] = (Ok tt, recs) ->
  Forall2 (fun f iv => row_feature int_of_text df (fst iv) (snd iv) = Ok f) recs rows.
Proof.
  intros H. destruct (write_rows_spec df rows []) as (k & new & Hsnd & HF & Hfst & Hex).
  rewrite H in Hsnd, Hfst. cbn [fst snd app] in *. subst new.
  destruct (nth_error rows k) as [iv|] eqn:E.
  - destruct (Hex iv eq_refl) as (e & He). rewrite He in Hfst. discriminate.
  - apply nth_error_None in E. now rewrite firstn_all2 in HF.
Qed.

Lemma row_cell_position df c i v :
  row_cell df c i = Ok v -> nth_error (column_or_nan df c) i = Some v.
Proof.
  unfold row_cell, item_at. intros H. bind_inv H col Hcol.
  apply get_col_lookup in Hcol. rewrite (column_or_nan_some _ _ _ Hcol).
  destruct (nth_error col i); [congruence|discriminate].
Qed.

(** The table the function leaves to its caller. *)
Definition with_geometries df (geoms : list (polygon num)) : DataFrame num :=
  mkDF (df_index df) (set_col (df_columns df) "geometry" (map VGeom geoms)).

Lemma row_feature_fields df i index f :
  row_feature int_of_text df i index = Ok f ->
  feat_id f = index /\
  nth_error (column_or_nan df "geometry") i = Some (VGeom (feat_geometry f)) /\
  (exists c, nth_error (column_or_nan df "coords") i = Some c /\
             feat_coords f = py_str c) /\
  (exists d, nth_error (column_or_nan df "duration") i = Some d /\
             py_int int_of_text d = Ok (feat_duration f)).
Proof.
  unfold row_feature. intros H.
  bind_inv H g Hg. bind_inv H g' Hg'. bind_inv H c Hc. bind_inv H d Hd.
  bind_inv H d' Hd'. injection H as <-. cbn.
  apply row_cell_position in Hg, Hc, Hd.
  destruct g; try discriminate. injection Hg' as <-.
  split; [reflexivity|]. split; [assumption|].
  split; [now exists c|now exists d].
Qed.

Lemma column_with_geometries df geoms (c : label) :
  c <> LStr "geometry" ->
  column_or_nan (with_geometries df geoms) c = column_or_nan df c.
Proof.
  intros Hc. unfold column_or_nan, with_geometries. cbn [df_columns df_index].
  rewrite lookup_set_other by congruence. reflexivity.
Qed.

Lemma loaded_length df geoms :
  wf_df df -> loaded wkt_loads df = Ok geoms ->
  List.length geoms = List.length (df_index df).
Proof.
  intros Hwf H. unfold loaded in H. bind_inv H cells Hcells.
  apply mapM_length in H. rewrite H. now apply (get_col_length df "geometry").
Qed.

(** The record of the row at position [fst iv] with index label
    [snd iv]. *)
Definition record_of_row df (geoms : list (polygon num)) (f : feature num)
  (iv : nat * value num) : Prop :=
  feat_id f = snd iv /\
  nth_error geoms (fst iv) = Some (feat_geometry f) /\
  (exists c, nth_error (column_or_nan df "coords") (fst iv) = Some c /\
             feat_coords f = py_str c) /\
  (exists d, nth_error (column_or_nan df "duration") (fst iv) = Some d /\
             py_int int_of_text d = Ok (feat_duration f)).

Lemma exported_fields w fn crs fmt :
  let r := isochrones_to_shp wkt_loads int_of_text writable fn crs fmt w in
  fst r = Ok tt ->
  exists geoms recs,
    loaded wkt_loads (frame w) = Ok geoms /\
    writable fmt = true /\
    frame (snd r) = with_geometries (frame w) geoms /\
    shapes (snd r) fn = Some (mkCollection fmt None recs) /\
    Forall2 (record_of_row (frame w) geoms) recs (iterrows (frame w)).
Proof.
  intros r H. subst r. unfold isochrones_to_shp in *.
  destruct (loaded wkt_loads (frame w)) as [geoms|e] eqn:Hl; [|discriminate].
  cbn [fst] in *. destruct (writable fmt) eqn:Hw; [|discriminate].
  fold (with_geometries (frame w) geoms) in *.
  destruct (write_rows int_of_text _ (iterrows (with_geometries (frame w) geoms)) [])
    as [r recs] eqn:Hwr.
  cbn [fst snd frame shapes] in *. subst r.
  exists geoms, recs. rewrite String.eqb_refl.
  do 4 (split; [reflexivity|]).
  apply write_rows_all in Hwr.
  change (iterrows (with_geometries (frame w) geoms)) with (iterrows (frame w)) in Hwr.
  eapply Forall2_impl; [|exact Hwr]. intros f [i index] Hf. cbn [fst snd] in *.
  apply row_feature_fields in Hf as (H1 & H2 & H3 & H4).
  rewrite !column_with_geometries in H3, H4 by discriminate.
  unfold column_or_nan, with_geometries in H2. cbn [df_columns] in H2.
  rewrite lookup_set_same, nth_error_map in H2.
  unfold record_of_row. cbn [fst snd].
  split; [exact H1|]. split; [|split; assumption].
  destruct (nth_error geoms i) as [g|]; [|discriminate].
  cbn [option_map] in H2. injection H2 as ->. reflexivity.
Qed.

Lemma record_ids df geoms (recs : list (feature num)) idx :
  Forall2 (record_of_row df geoms) recs (combine (seq 0 (List.length idx)) idx) ->
  map feat_id recs = idx.
Proof.
  intros H.
  rewrite <- (map_snd_combine (seq 0 (List.length idx)) idx) by now rewrite length_seq.
  induction H as [|f iv recs rows (H1 & _) _ IH]; cbn; congruence.
Qed.

(** X21: when the export returns, the file holds one record per row of
    the table, in the order of the rows, written with the driver asked for
    and without coordinate reference system (the [crs] argument does not
    reach [fiona.open]); the record of a row has the index label of the
    row as [id], the geometry read from the text of its geometry cell, the
    text of its coords cell and its duration as an integer.  The geometry
    column of the caller's table holds the geometries read. *)
Theorem export_writes_one_record_per_row w fn (crs : Z) fmt :
  wf_df (frame w) ->
  let r := isochrones_to_shp wkt_loads int_of_text writable fn crs fmt w in
  fst r = Ok tt ->
  exists geoms recs,
    loaded wkt_loads (frame w) = Ok geoms /\
    writable fmt = true /\
    frame (snd r) = with_geometries (frame w) geoms /\
    shapes (snd r) fn = Some (mkCollection fmt None recs) /\
    map feat_id recs = df_index (frame w) /\
    map feat_geometry recs = geoms /\
    map feat_coords recs = map py_str (column_or_nan (frame w) "coords") /\
    mapM (py_int int_of_text) (column_or_nan (frame w) "duration")
    = Ok (map feat_duration recs).
Proof.
  intros Hwf r H.
  destruct (exported_fields w fn crs fmt H) as (geoms & recs & Hl & Hw & Hfr & Hfile & HF).
  exists geoms, recs. do 4 (split; [assumption|]).
  pose proof (loaded_length _ _ Hwf Hl) as Hlen.
  unfold iterrows in HF. set (idx := df_index (frame w)) in *.
  split; [now apply (record_ids (frame w) geoms)|]. split; [|split].
  - rewrite <- (map_id geoms). apply Forall2_map_eq.
    apply (by_position (fun f g => g = feat_geometry f) geoms [] recs idx);
      [now rewrite Hlen|].
    cbn [app List.length]. rewrite Hlen.
    eapply Forall2_impl; [|exact HF]. intros f iv (_ & H2 & _).
    now exists (feat_geometry f).
  - pose proof (length_column_or_nan (frame w) "coords" Hwf) as Hc.
    apply Forall2_map_eq.
    apply (by_position (fun f c => py_str c = feat_coords f)
                       (column_or_nan (frame w) "coords") [] recs idx);
      [now rewrite Hc|].
    cbn [app List.length]. rewrite Hc.
    eapply Forall2_impl; [|exact HF]. intros f iv (_ & _ & (c & Hc1 & Hc2) & _).
    exists c. split; [assumption|now symmetry].
  - pose proof (length_column_or_nan (frame w) "duration" Hwf) as Hd.
    apply Forall2_mapM.
    apply (by_position (fun f d => py_int int_of_text d = Ok (feat_duration f))
                       (column_or_nan (frame w) "duration") [] recs idx);
      [now rewrite Hd|].
    cbn [app List.length]. rewrite Hd.
    eapply Forall2_impl; [|exact HF]. intros f iv (_ & _ & _ & (d & Hd1 & Hd2)).
    exists d. split; assumption.
Qed.

(** X22: exporting the table [pd.read_csv] reads from the output file of
    a batch run numbers the records: the [id] of a record is the position
    of its row in the file, 0, 1, ..., not the identifier of its origin,
    and there are as many records as the file has rows. *)
Theorem ledger_export_ids_are_row_numbers (f : csv) sh fn (crs : Z) fmt :
  wf_csv f ->
  fst (isochrones_to_shp wkt_loads int_of_text writable fn crs fmt
               (mkShp (read_csv_text f) sh)) = Ok tt ->
  exists recs,
    shapes (snd (isochrones_to_shp wkt_loads int_of_text writable fn crs fmt
               (mkShp (read_csv_text f) sh))) fn
    = Some (mkCollection fmt None recs) /\
    map feat_id recs = map (fun i => VInt (Z.of_nat i)) (seq 0 (csv_rows f)) /\
    List.length recs = csv_rows f.
Proof.
  intros Hwf H.
  destruct (exported_fields (mkShp (read_csv_text f) sh) fn crs fmt H)
    as (geoms & recs & _ & _ & _ & Hfile & HF).
  exists recs. split; [exact Hfile|].
  apply record_ids in HF. cbn [frame read_csv_text df_index] in HF.
  split; [exact HF|].
  rewrite <- (length_map feat_id), HF. unfold range_index.
  now rewrite length_map, length_seq.
Qed.

(** X23: the geometry column is read before anything is changed: when a
    cell of it holds text [wkt.loads] refuses, and the cells before it can
    be read, the export raises that exception, writes no file and leaves
    the caller's table as it was. *)
Theorem unreadable_geometry_changes_nothing w fn (crs : Z) fmt pre v post e :
  get_col (frame w) "geometry" = Ok (pre ++ v :: post) ->
  (forall c, In c pre -> exists g, wkt_loads (py_str c) = Ok g) ->
  wkt_loads (py_str v) = Raise e ->
  isochrones_to_shp wkt_loads int_of_text writable fn crs fmt w = (Raise e, w).
Proof.
  intros Hcol Hpre Hv. unfold isochrones_to_shp, loaded.
  rewrite Hcol. cbn [bind]. rewrite mapM_app.
  assert (exists gs, mapM (fun c => wkt_loads (py_str c)) pre = Ok gs) as (gs & ->).
  { clear Hcol. induction pre as [|c pre IH]; [now exists []|].
    destruct (Hpre c (or_introl eq_refl)) as (g & Hg).
    destruct IH as (rest & Hrest); [intros; apply Hpre; now right|].
    exists (g :: rest). cbn. now rewrite Hg, Hrest. }
  cbn [bind mapM]. rewrite Hv. reflexivity.
Qed.

(** X24: the file is opened for writing before the rows are looked at:
    on a table with at least one row that has no coords column, or no
    duration column, the export raises [KeyError] after it has replaced
    the file by an empty collection and the geometry column of the
    caller's table by the geometries read. *)
Theorem export_without_coords_empties_file w fn (crs : Z) fmt geoms :
  wf_df (frame w) -> df_index (frame w) <> [] ->
  loaded wkt_loads (frame w) = Ok geoms -> writable fmt = true ->
  lookup_col (df_columns (frame w)) "coords" = None \/
  lookup_col (df_columns (frame w)) "duration" = None ->
  isochrones_to_shp wkt_loads int_of_text writable fn crs fmt w
  = (Raise KeyError,
     mkShp (with_geometries (frame w) geoms)
           (fun p => if String.eqb p fn then Some (mkCollection fmt None [])
                     else shapes w p)).
Proof.
  intros Hwf Hrows Hl Hw Hmiss.
  pose proof (loaded_length _ _ Hwf Hl) as Hlen.
  unfold isochrones_to_shp. rewrite Hl, Hw. cbn [fst].
  fold (with_geometries (frame w) geoms).
  unfold iterrows. cbn [with_geometries df_index].
  destruct (df_index (frame w)) as [|index idx] eqn:Eidx; [congruence|].
  destruct geoms as [|g geoms]; [discriminate|].
  cbn [List.length seq combine write_rows].
  assert (Hrow : row_feature int_of_text (with_geometries (frame w) (g :: geoms)) 0 index
                 = Raise KeyError).
  { unfold row_feature, row_cell, get_col, with_geometries. cbn [df_columns].
    rewrite lookup_set_same. cbn [bind map item_at nth_error geom_of].
    rewrite !lookup_set_other by discriminate.
    destruct (lookup_col (df_columns (frame w)) "coords") as [cs|] eqn:Ec;
      [|reflexivity].
    destruct Hmiss as [Hm|Hm]; [discriminate|]. rewrite Hm.
    pose proof (Hwf _ _ (lookup_col_in _ _ _ Ec)) as Hcs. rewrite Eidx in Hcs.
    destruct cs as [|c cs]; [discriminate|]. reflexivity. }
  rewrite Hrow. reflexivity.
Qed.

End Exported.

(** *** An export of the file of a run *)

(** A reader that knows the text of the polygons of a list. *)
Definition reader (known : list (polygon float)) (s : string) : result (polygon float) :=
  match find (fun g => String.eqb (wkt g) s) known with
  | Some g => Ok g
  | None => Raise (ExternalError "WKTReadingError")
  end.

Definition int_reader (s : string) : result Z :=
  match parse_int s with
  | Some z => Ok z
  | None => Raise ValueError
  end.

Definition fiona_drivers (format : string) : bool :=
  String.eqb format "ESRI Shapefile" || String.eqb format "GeoJSON".

(** The file the run of two squares leaves. *)
Definition two_ledger : csv :=
  match files (snd (isochrone_batch ring_route "key" "isochrones.csv" "GEOID" (DInt 15)
                      (KList ["GEOID"]) 5 (mkWorld two_squares no_files)))
              "isochrones.csv" with
  | Some f => f
  | None => []
  end.

Definition no_shapes : string -> option (collection float) := fun _ => None.

Lemma wf_by_lengths {num : Type} (df : DataFrame num) :
  forallb (fun lc => (List.length (snd lc) =? List.length (df_index df))%nat)
          (df_columns df) = true ->
  wf_df df.
Proof.
  intros H l col Hin. rewrite forallb_forall in H.
  specialize (H _ Hin). apply Nat.eqb_eq in H. exact H.
Defined.

Lemma wf_csv_by_lengths (f : csv) :
  forallb (fun hc => (List.length (snd hc) =? csv_rows f)%nat) f = true ->
  wf_csv f.
Proof.
  intros H h cells Hin. rewrite forallb_forall in H.
  specialize (H _ Hin). apply Nat.eqb_eq in H. exact H.
Defined.

Lemma two_ledger_wf : wf_csv two_ledger.
Proof. apply wf_csv_by_lengths. vm_compute. reflexivity. Defined.

Definition two_table : DataFrame float := read_csv_text two_ledger.

Definition two_export : result unit * shp_world float :=
  isochrones_to_shp (reader two_rings) int_reader fiona_drivers
                    "isochrones.shp" 4269 "ESRI Shapefile"
                    (mkShp two_table no_shapes).

Example two_export_records :
  fst two_export = Ok tt /\
  option_map (fun c => map (fun f => (feat_id f, feat_duration f)) (coll_records c))
             (shapes (snd two_export) "isochrones.shp")
  = Some [(VInt 0, 15); (VInt 1, 15)].
Proof. vm_compute. split; reflexivity. Qed.

Lemma export_writes_one_record_per_row_witness :
  exists geoms recs,
    loaded (reader two_rings) two_table = Ok geoms /\
    fiona_drivers "ESRI Shapefile" = true /\
    frame (snd two_export) = with_geometries two_table geoms /\
    shapes (snd two_export) "isochrones.shp"
    = Some (mkCollection "ESRI Shapefile" None recs) /\
    map feat_id recs = df_index two_table /\
    map feat_geometry recs = geoms /\
    map feat_coords recs
    = map py_str (column_or_nan two_table "coords") /\
    mapM (@py_int float int_reader) (column_or_nan two_table "duration")
    = Ok (map feat_duration recs).
Proof.
  apply (export_writes_one_record_per_row (reader two_rings) int_reader fiona_drivers
           (mkShp two_table no_shapes)
           "isochrones.shp" 4269 "ESRI Shapefile").
  - apply wf_by_lengths. vm_compute. reflexivity.
  - vm_compute. reflexivity.
Defined.

Lemma ledger_export_ids_are_row_numbers_witness :
  exists recs,
    shapes (snd two_export) "isochrones.shp"
    = Some (mkCollection "ESRI Shapefile" None recs) /\
    map feat_id recs = map (fun i => VInt (Z.of_nat i)) (seq 0 (csv_rows two_ledger)) /\
    List.length recs = csv_rows two_ledger.
Proof.
  apply (ledger_export_ids_are_row_numbers (reader two_rings) int_reader fiona_drivers
           two_ledger no_shapes "isochrones.shp" 4269 "ESRI Shapefile").
  - apply two_ledger_wf.
  - vm_compute. reflexivity.
Defined.

(** A table whose second geometry cell is no WKT text. *)
Definition torn : shp_world float :=
  mkShp (mkDF (range_index 2)
              [(LStr "geometry", [VGeom (square 0 0); VStr "POLYGON (("]);
               (LStr "coords", [VStr "[1.0, 1.0]"; VStr "[1.0, 5.0]"]);
               (LStr "duration", [VInt 15; VInt 15])])
        no_shapes.

Lemma unreadable_geometry_changes_nothing_witness :
  isochrones_to_shp (reader [square 0 0]) int_reader fiona_drivers
                    "isochrones.shp" 4269 "ESRI Shapefile" torn
  = (Raise (ExternalError "WKTReadingError"), torn).
Proof.
  apply (unreadable_geometry_changes_nothing (reader [square 0 0]) int_reader
           fiona_drivers torn "isochrones.shp" 4269 "ESRI Shapefile"
           [VGeom (square 0 0)] (VStr "POLYGON ((") [] (ExternalError "WKTReadingError")).
  - reflexivity.
  - intros c [<-|[]]. exists (square 0 0). vm_compute. reflexivity.
  - vm_compute. reflexivity.
Defined.

(** A table of one row without coords column, and a file written
    before. *)
Definition bare : shp_world float :=
  mkShp (mkDF (range_index 1)
              [(LStr "geometry", [VGeom (square 0 0)]);
               (LStr "duration", [VInt 15])])
        (fun p => if String.eqb p "isochrones.shp"
                  then Some (mkCollection "ESRI Shapefile" None
                                          [mkFeature (square 4 0) (VInt 0) "[1.0, 5.0]" 30])
                  else None).

Lemma export_without_coords_empties_file_witness :
  isochrones_to_shp (reader [square 0 0]) int_reader fiona_drivers
                    "isochrones.shp" 4269 "ESRI Shapefile" bare
  = (Raise KeyError,
     mkShp (with_geometries (frame bare) [square 0 0])
           (fun p => if String.eqb p "isochrones.shp"
                     then Some (mkCollection "ESRI Shapefile" None [])
                     else shapes bare p)).
Proof.
  apply (export_without_coords_empties_file (reader [square 0 0]) int_reader
           fiona_drivers bare "isochrones.shp" 4269 "ESRI Shapefile" [square 0 0]).
  - apply wf_by_lengths. reflexivity.
  - discriminate.
  - vm_compute. reflexivity.
  - reflexivity.
  - left. reflexivity.
Defined.
